(** * Fire-alarm robot: the behaviour loop of [robot.py]

    A shallow embedding of the class [Robot] of [src/robot.py]: the state
    constants, the detection predicates, the behaviour policies and the
    dispatch step [update], followed by the properties of the state machine.

    The hardware (pybricks hub, motors, sensors) is not part of the program.
    Every call the program makes to it is recorded, in program order, in a
    log of events carried by the robot; a sensor read takes its answer from
    a sequence of readings, one sequence per sensor, and advances a cursor
    in it.  The program observes the world only through the answers of its
    sensor reads, so every run on real hardware is the run on the sequences
    of answers it received: a statement for all sequences is a statement
    for all environments.

    The module [constants] is not among the sources: its values are the
    fields of a record [Constants], taken as a parameter.  Numbers are
    integers ([Z]): the pybricks sensors answer in whole millimetres and
    whole percent, and the constants are taken to be integers as well.  A
    driver call that raises (a device that is unplugged) ends the program
    and is outside the model: every hardware call here returns. *)

From Stdlib Require Import ZArith List String Bool Lia.
Import ListNotations.
Local Open Scope Z_scope.

(** ** Data *)

(** State constants, lines 8-12.  [state_value] is the integer the source
    binds to each name. *)
Inductive RobotState : Type :=
  | WANDER
  | WALL_FOLLOWING
  | FIRE_DETECTION
  | EXTINGUISH
  | COMPLETE.

Definition state_value (s : RobotState) : Z :=
  match s with
  | WANDER => 1
  | WALL_FOLLOWING => 2
  | FIRE_DETECTION => 3
  | EXTINGUISH => 4
  | COMPLETE => 5
  end.

(** The text of [state_value s] inside an f-string. *)
Definition state_str (s : RobotState) : string :=
  match s with
  | WANDER => "1"
  | WALL_FOLLOWING => "2"
  | FIRE_DETECTION => "3"
  | EXTINGUISH => "4"
  | COMPLETE => "5"
  end.

Definition RobotState_eqb (a b : RobotState) : bool :=
  state_value a =? state_value b.

(** The colours of [pybricks.parameters.Color]; [NONE] is the answer of the
    colour sensor when it sees nothing. *)
Inductive Color : Type :=
  | BLACK | VIOLET | BLUE | CYAN | GREEN | YELLOW
  | ORANGE | RED | MAGENTA | WHITE | GRAY | NONE.

Definition Color_eqb (a b : Color) : bool :=
  match a, b with
  | BLACK, BLACK | VIOLET, VIOLET | BLUE, BLUE | CYAN, CYAN
  | GREEN, GREEN | YELLOW, YELLOW | ORANGE, ORANGE | RED, RED
  | MAGENTA, MAGENTA | WHITE, WHITE | GRAY, GRAY | NONE, NONE => true
  | _, _ => false
  end.

(** The names the source reads from the module [constants]. *)
Record Constants : Type := mkConstants {
  WHEEL_DIAMETER : Z;
  AXLE_TRACK : Z;
  WALL_FOLLOW_MIN_DISTANCE : Z;
  WALL_FOLLOW_STEP : Z;
  WALL_FOLLOW_ADJUST_ANGLE : Z;
  WANDER_DISTANCE : Z;
  APPROACH_FLAME_STEP_DISTANCE : Z;
  FLAME_DETECTION_THRESHOLD : Z;
  GOAL_COLOR : Color;
  FAN_SPEED : Z;
  FAN_RUN_TIME : Z;
  ALARM_FREQUENCY : Z;
  ALARM_DURATION : Z
}.

(** One sequence of answers per sensor. *)
Record Sensors : Type := mkSensors {
  touched_seq : nat -> bool;   (* touch_sensor.touched() *)
  distance_seq : nat -> Z;     (* side_sensor.distance() *)
  ambient_seq : nat -> Z;      (* color_distance_sensor.ambient() *)
  color_seq : nat -> Color     (* color_distance_sensor.color() *)
}.

(** What the program does to the outside, in program order: the answers of
    its sensor reads, its motor and hub commands, its prints. *)
Inductive event : Type :=
  | Touched (b : bool)
  | Distance (d : Z)
  | Ambient (a : Z)
  | Colour (c : Color)
  | UseGyro (b : bool)
  | Stop
  | Straight (distance : Z)
  | Turn (angle : Z)
  | RunTime (speed time : Z)
  | LightOn (c : Color)
  | Beep (frequency duration : Z)
  | Printed (s : string).

(** The object [self]: the field [current_state], the number of reads made
    so far of each sensor, and the log.  The projections are primitive: a
    robot is equal to the record of its fields. *)
#[projections(primitive)]
Record Robot : Type := mkRobot {
  current_state : RobotState;
  touch_reads : nat;
  side_reads : nat;
  ambient_reads : nat;
  color_reads : nat;
  log : list event
}.

(** Classes of events. *)
Definition is_sensor_read (e : event) : bool :=
  match e with
  | Touched _ | Distance _ | Ambient _ | Colour _ => true
  | _ => false
  end.

Definition is_motion (e : event) : bool :=
  match e with
  | Stop | Straight _ | Turn _ => true
  | _ => false
  end.

Definition is_command (e : event) : bool :=
  match e with
  | UseGyro _ | Stop | Straight _ | Turn _ | RunTime _ _
  | LightOn _ | Beep _ _ => true
  | _ => false
  end.

(** The angles of the turn commands and the distances of the straight
    drives of a list of events, in order. *)
Fixpoint turns (l : list event) : list Z :=
  match l with
  | [] => []
  | Turn a :: l' => a :: turns l'
  | _ :: l' => turns l'
  end.

Fixpoint straights (l : list event) : list Z :=
  match l with
  | [] => []
  | Straight d :: l' => d :: straights l'
  | _ :: l' => straights l'
  end.

(** ** A state monad over [Robot] *)

Definition M (A : Type) : Type := Robot -> A * Robot.

Definition ret {A : Type} (a : A) : M A := fun r => (a, r).

Definition bind {A B : Type} (m : M A) (k : A -> M B) : M B :=
  fun r => let (a, r') := m r in k a r'.

Declare Scope robot_scope.
Delimit Scope robot_scope with robot.
Notation "x <- m ;; k" := (bind m (fun x => k))
  (at level 61, m at next level, right associativity) : robot_scope.
Notation "m ;; k" := (bind m (fun _ => k))
  (at level 61, right associativity) : robot_scope.
Local Open Scope robot_scope.

(** Running a command for its effect only. *)
Definition exec {A : Type} (m : M A) (r : Robot) : Robot := snd (m r).

(** The events a command adds to the log of [r]. *)
Definition emitted {A : Type} (m : M A) (r : Robot) : list event :=
  skipn (List.length (log r)) (log (exec m r)).

Definition emit (e : event) : M unit :=
  fun r => (tt, mkRobot (current_state r) (touch_reads r) (side_reads r)
                        (ambient_reads r) (color_reads r) (log r ++ [e])).

Definition set_current_state (s : RobotState) : M unit :=
  fun r => (tt, mkRobot s (touch_reads r) (side_reads r)
                        (ambient_reads r) (color_reads r) (log r)).

Definition print (s : string) : M unit := emit (Printed s).

Section Program.

Variable K : Constants.
Variable env : Sensors.

(** ** The hardware calls *)

Definition touch_sensor_touched : M bool :=
  fun r =>
    let b := touched_seq env (touch_reads r) in
    (b, mkRobot (current_state r) (S (touch_reads r)) (side_reads r)
                (ambient_reads r) (color_reads r) (log r ++ [Touched b])).

Definition side_sensor_distance : M Z :=
  fun r =>
    let d := distance_seq env (side_reads r) in
    (d, mkRobot (current_state r) (touch_reads r) (S (side_reads r))
                (ambient_reads r) (color_reads r) (log r ++ [Distance d])).

Definition color_distance_sensor_ambient : M Z :=
  fun r =>
    let a := ambient_seq env (ambient_reads r) in
    (a, mkRobot (current_state r) (touch_reads r) (side_reads r)
                (S (ambient_reads r)) (color_reads r) (log r ++ [Ambient a])).

Definition color_distance_sensor_color : M Color :=
  fun r =>
    let c := color_seq env (color_reads r) in
    (c, mkRobot (current_state r) (touch_reads r) (side_reads r)
                (ambient_reads r) (S (color_reads r)) (log r ++ [Colour c])).

Definition drive_base_stop : M unit := emit Stop.
Definition drive_base_straight (distance : Z) : M unit := emit (Straight distance).
Definition drive_base_turn (angle : Z) : M unit := emit (Turn angle).
Definition fan_motor_run_time (speed time : Z) : M unit := emit (RunTime speed time).
Definition hub_light_on (c : Color) : M unit := emit (LightOn c).
Definition hub_speaker_beep (frequency duration : Z) : M unit :=
  emit (Beep frequency duration).

(** ** The class [Robot] *)

(** [__init__], lines 16-40: the devices are bound, the gyro is switched on
    and the state is [WANDER]. *)
Definition Robot_init : Robot :=
  mkRobot WANDER 0 0 0 0 [UseGyro true].

(** Lines 42-47. *)
Definition detect_obstacle : M bool :=
  t <- touch_sensor_touched ;;
  if t then drive_base_stop ;; ret true
  else ret false.

(** Lines 49-51. *)
Definition detect_wall_on_right : M bool :=
  d <- side_sensor_distance ;;
  ret (d <? WALL_FOLLOW_MIN_DISTANCE K).

(** Lines 53-56. *)
Definition detect_flame : M bool :=
  a <- color_distance_sensor_ambient ;;
  ret (a >? FLAME_DETECTION_THRESHOLD K).

(** Lines 58-60. *)
Definition detect_goal : M bool :=
  c <- color_distance_sensor_color ;;
  ret (Color_eqb c (GOAL_COLOR K)).

(** Lines 64-69: the body of [for _ in range(n)] and what follows it. *)
Fixpoint scan_loop (n : nat) : M bool :=
  match n with
  | O => ret false
  | S n' =>
      f <- detect_flame ;;
      if f then print "Flame detected during initial scan" ;; ret true
      else drive_base_turn 45 ;; scan_loop n'
  end.

(** Lines 62-69. *)
Definition initial_scan_for_flame : M bool := scan_loop 8.

(** Lines 116-119. *)
Definition transition_to (new_state : RobotState) : M unit :=
  set_current_state new_state ;;
  print ("Transitioning to " ++ state_str new_state).

(** Lines 108-114. *)
Definition extinguish : M unit :=
  print "Extinguishing fire..." ;;
  fan_motor_run_time (FAN_SPEED K) (FAN_RUN_TIME K) ;;
  set_current_state COMPLETE ;;
  print "Cooling down after extinguishing fire." ;;
  hub_light_on GREEN.

(** Lines 71-80.  The [while] loop has no bound in the source: [fuel]
    bounds the number of times its condition is evaluated, and [None] is
    the answer when that many evaluations do not leave the loop. *)
Fixpoint approach_flame (fuel : nat) (r : Robot) : option Robot :=
  match fuel with
  | O => None
  | S fuel' =>
      let (goal, r1) := detect_goal r in
      if negb goal then
        let (t, r2) := touch_sensor_touched r1 in
        if t then
          approach_flame fuel'
            (exec (drive_base_straight (- WALL_FOLLOW_STEP K) ;;
                   drive_base_turn (-90)) r2)
        else
          approach_flame fuel'
            (exec (drive_base_straight (APPROACH_FLAME_STEP_DISTANCE K)) r2)
      else Some (exec extinguish r1)
  end.

(** Lines 82-89. *)
Definition wander : M unit :=
  o <- detect_obstacle ;;
  if o then
    drive_base_straight (- WALL_FOLLOW_STEP K) ;;
    drive_base_turn (-90) ;;
    transition_to WALL_FOLLOWING
  else
    drive_base_straight (WANDER_DISTANCE K).

(** Lines 99-100: the proportional correction for a distance reading. *)
Definition angle_adjustment (distance : Z) : Z :=
  let distance_error := WALL_FOLLOW_MIN_DISTANCE K - distance in
  distance_error * WALL_FOLLOW_ADJUST_ANGLE K.

(** Lines 91-102. *)
Definition wall_following : M unit :=
  o <- detect_obstacle ;;
  if o then
    drive_base_straight (- WALL_FOLLOW_STEP K) ;;
    drive_base_turn (-90)
  else
    w <- detect_wall_on_right ;;
    if negb w then drive_base_turn (-90)
    else
      d <- side_sensor_distance ;;
      drive_base_turn (angle_adjustment d) ;;
      drive_base_straight (WALL_FOLLOW_STEP K).

(** Lines 104-106. *)
Definition fire_detection : M unit :=
  initial_scan_for_flame ;; ret tt.

(** Lines 121-125. *)
Definition raise_alarm : M unit :=
  print "Alarm raised!" ;;
  hub_speaker_beep (ALARM_FREQUENCY K) (ALARM_DURATION K).

(** Lines 127-150.  The chain of [if]/[elif] has no [else]: a state that
    matches no branch falls through.  [None] only when [approach_flame]
    does not leave its loop within [fuel]. *)
Definition update (fuel : nat) (r : Robot) : option Robot :=
  let r0 := exec (print ("Current State: " ++ state_str (current_state r))) r in
  if RobotState_eqb (current_state r0) WANDER then
    let (found, r1) := initial_scan_for_flame r0 in
    if negb found then
      Some (exec (print "No flame detected during initial scan. Wandering..." ;;
                  wander) r1)
    else Some (exec (transition_to FIRE_DETECTION) r1)
  else if RobotState_eqb (current_state r0) WALL_FOLLOWING then
    let (goal, r1) := (wall_following ;; detect_goal) r0 in
    if goal then Some (exec (transition_to FIRE_DETECTION) r1)
    else Some r1
  else if RobotState_eqb (current_state r0) FIRE_DETECTION then
    match approach_flame fuel r0 with
    | Some r1 => Some (exec (transition_to EXTINGUISH) r1)
    | None => None
    end
  else if RobotState_eqb (current_state r0) EXTINGUISH then
    Some (exec (extinguish ;;
                print "Cooldown period before returning to wander." ;;
                transition_to WANDER) r0)
  else Some r0.

(** A run of the control loop: [update] called again and again, each call
    with its own bound. *)
Fixpoint run (fuels : list nat) (r : Robot) : option Robot :=
  match fuels with
  | [] => Some r
  | fuel :: fuels' =>
      match update fuel r with
      | Some r' => run fuels' r'
      | None => None
      end
  end.

End Program.

(** ** Vocabulary of the statements *)

(** The ambient readings [c], [c+1], ..., [c+n-1] show no flame: none is
    above [FLAME_DETECTION_THRESHOLD]. *)
Definition no_flame (K : Constants) (env : Sensors) (c n : nat) : Prop :=
  forall i : nat, (i < n)%nat ->
    ambient_seq env (c + i) <= FLAME_DETECTION_THRESHOLD K.

(** The events of [n] flame checks in a row that find nothing, the first
    one being read [c] of the ambient sequence: each read is followed by a
    turn of 45. *)
Definition sweep (env : Sensors) (c n : nat) : list event :=
  flat_map (fun i => [Ambient (ambient_seq env i); Turn 45]) (seq c n).

(** The robot after the print that opens [update]. *)
Definition announced (r : Robot) : Robot :=
  exec (print ("Current State: " ++ state_str (current_state r))) r.

(** The robots the control loop can be in: the one [__init__] makes, and
    every robot a completed [update] leaves. *)
Inductive reachable (K : Constants) (env : Sensors) : Robot -> Prop :=
  | reachable_init : reachable K env Robot_init
  | reachable_update (fuel : nat) (r r' : Robot) :
      reachable K env r ->
      update K env fuel r = Some r' ->
      reachable K env r'.

(** The pairs (state before, state after) of the dispatch chain of
    [update], lines 131-150, read off branch by branch. *)
Definition dispatch_edge (s s' : RobotState) : bool :=
  match s, s' with
  | WANDER, WANDER | WANDER, WALL_FOLLOWING | WANDER, FIRE_DETECTION => true
  | WALL_FOLLOWING, WALL_FOLLOWING | WALL_FOLLOWING, FIRE_DETECTION => true
  | FIRE_DETECTION, EXTINGUISH => true
  | EXTINGUISH, WANDER => true
  | COMPLETE, COMPLETE => true
  | _, _ => false
  end.

(** ** Basic facts about the log and the monad *)


Lemma turns_app (l1 l2 : list event) : turns (l1 ++ l2) = turns l1 ++ turns l2.
Proof.
  induction l1 as [|e l1 IH]; simpl; [reflexivity|].
  destruct e; simpl; rewrite IH; reflexivity.
Qed.

Lemma Some_eq {A : Type} (a b : A) : Some a = Some b -> a = b.
Proof. congruence. Qed.

Lemma Color_eqb_eq (a b : Color) : Color_eqb a b = true <-> a = b.
Proof. destruct a, b; simpl; split; intros H; congruence. Qed.

(** Running the straight-line operations down to records.  The argument of
    an operation is reduced before the operation is unfolded on it, so the
    six uses of the robot in [emit] copy a value and not a computation. *)
Ltac unfold_ops :=
  cbv [wander wall_following extinguish transition_to raise_alarm
       fire_detection detect_obstacle detect_wall_on_right detect_flame
       detect_goal touch_sensor_touched side_sensor_distance
       color_distance_sensor_ambient color_distance_sensor_color
       drive_base_stop drive_base_straight drive_base_turn
       fan_motor_run_time hub_light_on hub_speaker_beep print
       set_current_state emit exec bind ret announced
       current_state touch_reads side_reads ambient_reads color_reads log
       fst snd negb] in *.

Ltac norm_log := repeat (rewrite <- app_assoc; simpl app).

(** Case analysis on the condition of the first [if] of the goal. *)
Ltac case_if :=
  match goal with
  | |- context [if ?b then _ else _] => destruct b eqn:?; cbv beta iota
  end.

(** Two robots, or two logs, that differ in the writing of a cursor only. *)
Ltac same_up_to_cursor := reflexivity || (repeat (f_equal; try lia)).

(** Reducing the projections of a robot written out as a record. *)
Ltac fields :=
  cbn [current_state touch_reads side_reads ambient_reads color_reads log
       fst snd] in *.

Section Frame.

Variable K : Constants.
Variable env : Sensors.

(** The loop of the flame scan never writes [current_state]. *)
Lemma scan_loop_state (n : nat) :
  forall r, current_state (exec (scan_loop K env n) r) = current_state r.
Proof.
  induction n as [|n IH]; intros r; [reflexivity|].
  simpl scan_loop. unfold_ops. case_if; [reflexivity|].
  rewrite IH. reflexivity.
Qed.

(** C8.  Each of the four detection predicates [detect_obstacle],
    [detect_wall_on_right], [detect_flame], [detect_goal] leaves
    [current_state] as it was, whatever the sensors answer; so do the
    sensor reads, every motor, hub and print call, the flame scan,
    [fire_detection], [wall_following] and [raise_alarm].  The two
    operations that write the field are [transition_to], which stores its
    argument, and [extinguish], which stores [COMPLETE]. *)
Theorem detection_leaves_current_state :
  forall r : Robot,
    current_state (exec (detect_obstacle env) r) = current_state r /\
    current_state (exec (detect_wall_on_right K env) r) = current_state r /\
    current_state (exec (detect_flame K env) r) = current_state r /\
    current_state (exec (detect_goal K env) r) = current_state r /\
    current_state (exec (touch_sensor_touched env) r) = current_state r /\
    current_state (exec (side_sensor_distance env) r) = current_state r /\
    current_state (exec (color_distance_sensor_ambient env) r) = current_state r /\
    current_state (exec (color_distance_sensor_color env) r) = current_state r /\
    (forall e : event, current_state (exec (emit e) r) = current_state r) /\
    current_state (exec (initial_scan_for_flame K env) r) = current_state r /\
    current_state (exec (fire_detection K env) r) = current_state r /\
    current_state (exec (wall_following K env) r) = current_state r /\
    current_state (exec (raise_alarm K) r) = current_state r /\
    (forall s, current_state (exec (transition_to s) r) = s) /\
    current_state (exec (extinguish K) r) = COMPLETE.
Proof.
  intros r.
  assert (Hscan : current_state (exec (initial_scan_for_flame K env) r)
                  = current_state r) by apply scan_loop_state.
  repeat split; try exact Hscan.
  - unfold_ops. case_if; reflexivity.
  - unfold fire_detection, bind, exec, ret in *.
    destruct (initial_scan_for_flame K env r) as [b r']. exact Hscan.
  - unfold_ops. case_if; [reflexivity|]. case_if; reflexivity.
Qed.

(** C4.  [wander] with the touch sensor in contact stops, drives straight by
    minus [WALL_FOLLOW_STEP], turns by -90 and moves to [WALL_FOLLOWING];
    with no contact it drives [WANDER_DISTANCE] straight and leaves the
    state as it was. *)
Theorem wander_contact_or_advance :
  forall r : Robot,
    let r' := exec (wander K env) r in
    if touched_seq env (touch_reads r) then
      log r' = log r ++ [Touched true; Stop;
                         Straight (- WALL_FOLLOW_STEP K); Turn (-90);
                         Printed "Transitioning to 2"] /\
      current_state r' = WALL_FOLLOWING
    else
      log r' = log r ++ [Touched false; Straight (WANDER_DISTANCE K)] /\
      current_state r' = current_state r.
Proof.
  intros r. unfold_ops. case_if; norm_log; split; reflexivity.
Qed.

(** One evaluation of the condition of the loop of [approach_flame]. *)
Lemma approach_flame_S (fuel : nat) (r : Robot) :
  approach_flame K env (S fuel) r =
    (let (goal, r1) := detect_goal K env r in
     if negb goal then
       let (t, r2) := touch_sensor_touched env r1 in
       if t then
         approach_flame K env fuel
           (exec (drive_base_straight (- WALL_FOLLOW_STEP K) ;;
                  drive_base_turn (-90)) r2)
       else
         approach_flame K env fuel
           (exec (drive_base_straight (APPROACH_FLAME_STEP_DISTANCE K)) r2)
     else Some (exec (extinguish K) r1)).
Proof. reflexivity. Qed.

(** C6.  When [detect_goal] answers true at the first check of
    [approach_flame], [extinguish] is invoked on a robot whose log has
    gained the colour read and nothing else: no stop, straight drive or
    turn precedes it, and none is in the whole call. *)
Theorem approach_flame_goal_at_once :
  forall (fuel : nat) (r : Robot),
    fst (detect_goal K env r) = true ->
    let r1 := exec (detect_goal K env) r in
    approach_flame K env (S fuel) r = Some (exec (extinguish K) r1) /\
    log r1 = log r ++ [Colour (GOAL_COLOR K)] /\
    filter is_motion (skipn (List.length (log r)) (log r1)) = [] /\
    log (exec (extinguish K) r1) =
      log r ++ [Colour (GOAL_COLOR K);
                Printed "Extinguishing fire...";
                RunTime (FAN_SPEED K) (FAN_RUN_TIME K);
                Printed "Cooling down after extinguishing fire.";
                LightOn GREEN] /\
    filter is_motion
      (skipn (List.length (log r)) (log (exec (extinguish K) r1))) = [].
Proof.
  intros fuel r H r1. subst r1.
  assert (Hc : color_seq env (color_reads r) = GOAL_COLOR K).
  { apply Color_eqb_eq. exact H. }
  split.
  - rewrite approach_flame_S. unfold exec.
    destruct (detect_goal K env r) as [g r1]. simpl in H. subst g.
    reflexivity.
  - assert (L1 : log (exec (detect_goal K env) r) = log r ++ [Colour (GOAL_COLOR K)]).
    { unfold_ops. simpl. rewrite Hc. reflexivity. }
    assert (L2 : log (exec (extinguish K) (exec (detect_goal K env) r)) =
                 log r ++ [Colour (GOAL_COLOR K);
                           Printed "Extinguishing fire...";
                           RunTime (FAN_SPEED K) (FAN_RUN_TIME K);
                           Printed "Cooling down after extinguishing fire.";
                           LightOn GREEN]).
    { unfold_ops. simpl. rewrite Hc. norm_log. reflexivity. }
    rewrite L1, L2.
    rewrite !skipn_app, !skipn_all, Nat.sub_diag. simpl.
    repeat split; reflexivity.
Qed.

End Frame.

(** ** The flame scan *)

Section Scan.

Variable K : Constants.
Variable env : Sensors.

Lemma no_flame_head (c n : nat) :
  no_flame K env c (S n) ->
  (ambient_seq env c >? FLAME_DETECTION_THRESHOLD K) = false.
Proof.
  intros H. rewrite Z.gtb_ltb. apply Z.ltb_ge.
  specialize (H 0%nat). rewrite Nat.add_0_r in H. apply H. lia.
Qed.

Lemma no_flame_tail (c n : nat) :
  no_flame K env c (S n) -> no_flame K env (S c) n.
Proof.
  intros H i Hi. replace (S c + i)%nat with (c + S i)%nat by lia.
  apply H. lia.
Qed.

Lemma sweep_S (c n : nat) :
  sweep env c (S n) = Ambient (ambient_seq env c) :: Turn 45 :: sweep env (S c) n.
Proof. reflexivity. Qed.

Lemma turns_sweep (c n : nat) : turns (sweep env c n) = repeat 45 n.
Proof.
  revert c. induction n as [|n IH]; intros c; [reflexivity|].
  rewrite sweep_S. simpl. rewrite IH. reflexivity.
Qed.

(** One round of the loop, by the answer of its flame check. *)
Lemma scan_loop_S_miss (n : nat) (r : Robot) :
  (ambient_seq env (ambient_reads r) >? FLAME_DETECTION_THRESHOLD K) = false ->
  scan_loop K env (S n) r =
  scan_loop K env n
    (mkRobot (current_state r) (touch_reads r) (side_reads r)
             (S (ambient_reads r)) (color_reads r)
             (log r ++ [Ambient (ambient_seq env (ambient_reads r)); Turn 45])).
Proof.
  intros H. simpl. unfold_ops. simpl. rewrite H. simpl. norm_log. reflexivity.
Qed.

Lemma scan_loop_S_hit (n : nat) (r : Robot) :
  (ambient_seq env (ambient_reads r) >? FLAME_DETECTION_THRESHOLD K) = true ->
  scan_loop K env (S n) r =
  (true,
   mkRobot (current_state r) (touch_reads r) (side_reads r)
           (S (ambient_reads r)) (color_reads r)
           (log r ++ [Ambient (ambient_seq env (ambient_reads r));
                      Printed "Flame detected during initial scan"])).
Proof.
  intros H. simpl. unfold_ops. simpl. rewrite H. simpl. norm_log. reflexivity.
Qed.

(** The loop when none of its [n] checks sees a flame. *)
Lemma scan_loop_exhausted (n : nat) :
  forall r : Robot,
    no_flame K env (ambient_reads r) n ->
    scan_loop K env n r =
    (false,
     mkRobot (current_state r) (touch_reads r) (side_reads r)
             (ambient_reads r + n) (color_reads r)
             (log r ++ sweep env (ambient_reads r) n)).
Proof.
  induction n as [|n IH]; intros r H.
  - destruct r; simpl. rewrite Nat.add_0_r, app_nil_r. reflexivity.
  - rewrite scan_loop_S_miss by (eapply no_flame_head; exact H).
    rewrite IH by (fields; apply no_flame_tail; exact H).
    fields. rewrite sweep_S. norm_log.
    same_up_to_cursor.
Qed.

(** The loop when check number [k] (from 0) is the first to see a flame. *)
Lemma scan_loop_found (n : nat) :
  forall (k : nat) (r : Robot),
    (k < n)%nat ->
    no_flame K env (ambient_reads r) k ->
    FLAME_DETECTION_THRESHOLD K < ambient_seq env (ambient_reads r + k) ->
    scan_loop K env n r =
    (true,
     mkRobot (current_state r) (touch_reads r) (side_reads r)
             (ambient_reads r + k + 1) (color_reads r)
             (log r ++ sweep env (ambient_reads r) k ++
                [Ambient (ambient_seq env (ambient_reads r + k));
                 Printed "Flame detected during initial scan"])).
Proof.
  induction n as [|n IH]; intros k r Hk Hno Hflame; [lia|].
  destruct k as [|k].
  - rewrite Nat.add_0_r in *. rewrite scan_loop_S_hit by (apply Z.gtb_lt; lia).
    same_up_to_cursor.
  - rewrite scan_loop_S_miss by (eapply no_flame_head; exact Hno).
    rewrite (IH k); fields.
    + rewrite sweep_S. norm_log. same_up_to_cursor.
    + lia.
    + apply no_flame_tail. exact Hno.
    + replace (S (ambient_reads r) + k)%nat with (ambient_reads r + S k)%nat by lia.
      exact Hflame.
Qed.

(** Among the next [n] readings either none shows a flame or there is a
    first one that does. *)
Lemma first_flame_or_none (c n : nat) :
  no_flame K env c n \/
  exists k : nat, (k < n)%nat /\ no_flame K env c k /\
    FLAME_DETECTION_THRESHOLD K < ambient_seq env (c + k).
Proof.
  induction n as [|n IH].
  - left. intros i Hi. lia.
  - destruct IH as [Hno | (k & Hk & Hno & Hf)].
    + destruct (Z_lt_le_dec (FLAME_DETECTION_THRESHOLD K) (ambient_seq env (c + n)))
        as [Hlt | Hle].
      * right. exists n. repeat split; [lia | exact Hno | exact Hlt].
      * left. intros i Hi. destruct (Nat.eq_dec i n) as [-> | Hne];
          [exact Hle | apply Hno; lia].
    + right. exists k. repeat split; [lia | exact Hno | exact Hf].
Qed.

Lemma no_flame_ext (c1 c2 n : nat) :
  (forall i, (i < n)%nat -> ambient_seq env (c2 + i) = ambient_seq env (c1 + i)) ->
  no_flame K env c1 n -> no_flame K env c2 n.
Proof. intros E H i Hi. rewrite E by exact Hi. apply H. exact Hi. Qed.

Lemma sweep_ext (c1 c2 n : nat) :
  (forall i, (i < n)%nat -> ambient_seq env (c2 + i) = ambient_seq env (c1 + i)) ->
  sweep env c2 n = sweep env c1 n.
Proof.
  revert c1 c2. induction n as [|n IH]; intros c1 c2 E; [reflexivity|].
  rewrite !sweep_S. f_equal.
  - specialize (E 0%nat). rewrite !Nat.add_0_r in E. rewrite E by lia. reflexivity.
  - f_equal. apply IH. intros i Hi.
    replace (S c2 + i)%nat with (c2 + S i)%nat by lia.
    replace (S c1 + i)%nat with (c1 + S i)%nat by lia.
    apply E. lia.
Qed.

(** What one scan adds to the log is fixed by the eight readings ahead. *)
Lemma initial_scan_outcome (r : Robot) :
  let c := ambient_reads r in
  (no_flame K env c 8 /\
   fst (initial_scan_for_flame K env r) = false /\
   emitted (initial_scan_for_flame K env) r = sweep env c 8) \/
  (exists k : nat, (k < 8)%nat /\ no_flame K env c k /\
     FLAME_DETECTION_THRESHOLD K < ambient_seq env (c + k) /\
     fst (initial_scan_for_flame K env r) = true /\
     emitted (initial_scan_for_flame K env) r =
       sweep env c k ++ [Ambient (ambient_seq env (c + k));
                         Printed "Flame detected during initial scan"]).
Proof.
  intros c. subst c.
  destruct (first_flame_or_none (ambient_reads r) 8) as [Hno | (k & Hk & Hno & Hf)].
  - left. split; [exact Hno|].
    unfold emitted, exec, initial_scan_for_flame.
    rewrite (scan_loop_exhausted 8 r Hno). simpl fst. simpl snd. simpl log.
    split; [reflexivity|].
    rewrite skipn_app, skipn_all, Nat.sub_diag. reflexivity.
  - right. exists k. repeat split; try assumption;
      unfold emitted, exec, initial_scan_for_flame;
      rewrite (scan_loop_found 8 k r Hk Hno Hf); simpl fst; simpl snd; simpl log.
    + reflexivity.
    + rewrite skipn_app, skipn_all, Nat.sub_diag. reflexivity.
Qed.

(** C2.  [initial_scan_for_flame] reads the ambient light before each turn.
    With no flame in the eight readings ahead it makes eight turns of 45
    and answers false.  With the first flame at check [k] (counted from 0,
    [k < 8]) it makes the [k] turns that precede that check, answers true
    and turns no more.  In every case its turns are at most eight, each of
    45.  Its answer and its events depend on the robot only through the
    eight readings ahead: started again on the same readings it does the
    same. *)
Theorem initial_scan_for_flame_sweep :
  forall r r2 : Robot,
    let c := ambient_reads r in
    (no_flame K env c 8 ->
     initial_scan_for_flame K env r =
       (false,
        mkRobot (current_state r) (touch_reads r) (side_reads r)
                (c + 8) (color_reads r) (log r ++ sweep env c 8))) /\
    (forall k : nat,
       (k < 8)%nat ->
       no_flame K env c k ->
       FLAME_DETECTION_THRESHOLD K < ambient_seq env (c + k) ->
       initial_scan_for_flame K env r =
         (true,
          mkRobot (current_state r) (touch_reads r) (side_reads r)
                  (c + k + 1) (color_reads r)
                  (log r ++ sweep env c k ++
                     [Ambient (ambient_seq env (c + k));
                      Printed "Flame detected during initial scan"]))) /\
    (exists m : nat,
       (m <= 8)%nat /\
       turns (emitted (initial_scan_for_flame K env) r) = repeat 45 m) /\
    ((forall i : nat, (i < 8)%nat ->
        ambient_seq env (ambient_reads r2 + i) = ambient_seq env (c + i)) ->
     fst (initial_scan_for_flame K env r2) = fst (initial_scan_for_flame K env r) /\
     emitted (initial_scan_for_flame K env) r2 =
       emitted (initial_scan_for_flame K env) r).
Proof.
  intros r r2 c. subst c. split; [|split; [|split]].
  - intros Hno. apply scan_loop_exhausted. exact Hno.
  - intros k Hk Hno Hf. apply scan_loop_found; assumption.
  - destruct (initial_scan_outcome r) as [(_ & _ & E) | (k & Hk & _ & _ & _ & E)];
      rewrite E.
    + exists 8%nat. split; [lia | apply turns_sweep].
    + exists k. split; [lia|].
      rewrite turns_app, turns_sweep. simpl. apply app_nil_r.
  - intros Hsame.
    destruct (initial_scan_outcome r) as [(Hno & B & E) | (k & Hk & Hno & Hf & B & E)].
    + assert (Hno2 : no_flame K env (ambient_reads r2) 8)
        by (eapply no_flame_ext; eassumption).
      rewrite B, E.
      unfold emitted, exec, initial_scan_for_flame.
      rewrite (scan_loop_exhausted 8 r2 Hno2). simpl fst. simpl snd. simpl log.
      split; [reflexivity|].
      rewrite skipn_app, skipn_all, Nat.sub_diag.
      apply sweep_ext. exact Hsame.
    + assert (Hsame_k : forall i, (i < k)%nat ->
                ambient_seq env (ambient_reads r2 + i)
                = ambient_seq env (ambient_reads r + i))
        by (intros i Hi; apply Hsame; lia).
      assert (Hno2 : no_flame K env (ambient_reads r2) k)
        by (eapply no_flame_ext; eassumption).
      assert (Hf2 : FLAME_DETECTION_THRESHOLD K
                    < ambient_seq env (ambient_reads r2 + k))
        by (rewrite Hsame by exact Hk; exact Hf).
      rewrite B, E.
      unfold emitted, exec, initial_scan_for_flame.
      rewrite (scan_loop_found 8 k r2 Hk Hno2 Hf2). simpl fst. simpl snd. simpl log.
      split; [reflexivity|].
      rewrite skipn_app, skipn_all, Nat.sub_diag.
      rewrite (sweep_ext _ _ _ Hsame_k), (Hsame k Hk). reflexivity.
Qed.

End Scan.

(** ** The dispatch step, branch by branch *)

Section Dispatch.

Variable K : Constants.
Variable env : Sensors.

Lemma announced_state (r : Robot) : current_state (announced r) = current_state r.
Proof. reflexivity. Qed.

Lemma update_WANDER (fuel : nat) (r : Robot) :
  current_state r = WANDER ->
  update K env fuel r =
    (let (found, r1) := initial_scan_for_flame K env (announced r) in
     if negb found then
       Some (exec (print "No flame detected during initial scan. Wandering..." ;;
                   wander K env) r1)
     else Some (exec (transition_to FIRE_DETECTION) r1)).
Proof.
  intros H. unfold update. fold (announced r).
  rewrite announced_state, H. reflexivity.
Qed.

Lemma update_WALL_FOLLOWING (fuel : nat) (r : Robot) :
  current_state r = WALL_FOLLOWING ->
  update K env fuel r =
    (let (goal, r1) := (wall_following K env ;; detect_goal K env) (announced r) in
     if goal then Some (exec (transition_to FIRE_DETECTION) r1) else Some r1).
Proof.
  intros H. unfold update. fold (announced r).
  rewrite announced_state, H. reflexivity.
Qed.

Lemma update_FIRE_DETECTION (fuel : nat) (r : Robot) :
  current_state r = FIRE_DETECTION ->
  update K env fuel r =
    match approach_flame K env fuel (announced r) with
    | Some r1 => Some (exec (transition_to EXTINGUISH) r1)
    | None => None
    end.
Proof.
  intros H. unfold update. fold (announced r).
  rewrite announced_state, H. reflexivity.
Qed.

Lemma update_EXTINGUISH (fuel : nat) (r : Robot) :
  current_state r = EXTINGUISH ->
  update K env fuel r =
    Some (exec (extinguish K ;;
                print "Cooldown period before returning to wander." ;;
                transition_to WANDER) (announced r)).
Proof.
  intros H. unfold update. fold (announced r).
  rewrite announced_state, H. reflexivity.
Qed.

Lemma update_COMPLETE (fuel : nat) (r : Robot) :
  current_state r = COMPLETE -> update K env fuel r = Some (announced r).
Proof.
  intros H. unfold update. fold (announced r).
  rewrite announced_state, H. reflexivity.
Qed.

(** What each policy does to [current_state]. *)
Lemma wander_state (r : Robot) :
  current_state (exec (wander K env) r) =
  if touched_seq env (touch_reads r) then WALL_FOLLOWING else current_state r.
Proof.
  unfold_ops. case_if; reflexivity.
Qed.

Lemma wall_following_state (r : Robot) :
  current_state (exec (wall_following K env) r) = current_state r.
Proof.
  unfold_ops. case_if; [reflexivity|]. case_if; reflexivity.
Qed.

(** [approach_flame] leaves its loop only through [extinguish]. *)
Lemma approach_flame_state (fuel : nat) :
  forall r r1 : Robot,
    approach_flame K env fuel r = Some r1 -> current_state r1 = COMPLETE.
Proof.
  induction fuel as [|fuel IH]; intros r r1 H; [discriminate|].
  simpl in H. unfold detect_goal, color_distance_sensor_color, bind, ret in H.
  destruct (Color_eqb (color_seq env (color_reads r)) (GOAL_COLOR K)); simpl in H.
  - apply Some_eq in H; subst. reflexivity.
  - destruct (touched_seq env (touch_reads r)); eapply IH; exact H.
Qed.

(** More fuel does not change a result. *)
Lemma approach_flame_fuel_mono (fuel : nat) :
  forall (r r1 : Robot) (extra : nat),
    approach_flame K env fuel r = Some r1 ->
    approach_flame K env (fuel + extra) r = Some r1.
Proof.
  induction fuel as [|fuel IH]; intros r r1 extra H; [discriminate|].
  simpl in *. unfold detect_goal, color_distance_sensor_color, bind, ret in *.
  destruct (Color_eqb (color_seq env (color_reads r)) (GOAL_COLOR K)); simpl in *.
  - exact H.
  - destruct (touched_seq env (touch_reads r)); apply IH; exact H.
Qed.

(** The loop of [approach_flame] is left at the first colour read that
    shows the goal: when that is read [k] ahead, [k + 1] evaluations of the
    condition are enough. *)
Lemma approach_flame_completes (k : nat) :
  forall r : Robot,
    color_seq env (color_reads r + k) = GOAL_COLOR K ->
    exists r1 : Robot, approach_flame K env (S k) r = Some r1.
Proof.
  induction k as [|k IH]; intros r H.
  - rewrite Nat.add_0_r in H. simpl.
    unfold detect_goal, color_distance_sensor_color, bind, ret.
    rewrite H. rewrite (proj2 (Color_eqb_eq _ _) eq_refl). simpl. eauto.
  - rewrite approach_flame_S.
    unfold detect_goal, color_distance_sensor_color, touch_sensor_touched, bind, ret.
    destruct (Color_eqb (color_seq env (color_reads r)) (GOAL_COLOR K));
      cbn [negb]; [eauto|].
    fields.
    case_if; apply IH; unfold_ops;
      rewrite Nat.add_succ_l, <- Nat.add_succ_r; exact H.
Qed.

(** C10.  [update] in state [COMPLETE] matches no branch: it returns, the
    state and the read cursors are as before, and the only event is the
    print of the current state that precedes the dispatch. *)
Theorem update_complete_no_branch :
  forall (fuel : nat) (r : Robot),
    current_state r = COMPLETE ->
    update K env fuel r =
      Some (mkRobot COMPLETE (touch_reads r) (side_reads r)
                    (ambient_reads r) (color_reads r)
                    (log r ++ [Printed "Current State: 5"])) /\
    (forall r', update K env fuel r = Some r' ->
       filter is_command (skipn (List.length (log r)) (log r')) = [] /\
       filter is_sensor_read (skipn (List.length (log r)) (log r')) = []).
Proof.
  intros fuel r H.
  assert (E : update K env fuel r =
      Some (mkRobot COMPLETE (touch_reads r) (side_reads r)
                    (ambient_reads r) (color_reads r)
                    (log r ++ [Printed "Current State: 5"]))).
  { rewrite update_COMPLETE by exact H.
    unfold announced, print, emit, exec. simpl. rewrite H. reflexivity. }
  split; [exact E|].
  intros r' Hr'. rewrite E in Hr'. apply Some_eq in Hr'; subst. simpl.
  rewrite skipn_app, skipn_all, Nat.sub_diag. simpl. split; reflexivity.
Qed.

(** C1.  [update] in state [EXTINGUISH] runs [extinguish]: the fan runs at
    [FAN_SPEED] for [FAN_RUN_TIME] and the state is set to [COMPLETE]; the
    step then moves to [WANDER]. *)
Theorem update_extinguish_then_wander :
  forall (fuel : nat) (r : Robot),
    current_state r = EXTINGUISH ->
    let r0 := exec (print "Current State: 4") r in
    let r1 := exec (extinguish K) r0 in
    let r2 := exec (print "Cooldown period before returning to wander.") r1 in
    update K env fuel r = Some (exec (transition_to WANDER) r2) /\
    current_state r1 = COMPLETE /\
    log r1 = log r ++ [Printed "Current State: 4";
                       Printed "Extinguishing fire...";
                       RunTime (FAN_SPEED K) (FAN_RUN_TIME K);
                       Printed "Cooling down after extinguishing fire.";
                       LightOn GREEN] /\
    forall r', update K env fuel r = Some r' ->
      current_state r' = WANDER /\
      log r' = log r1 ++ [Printed "Cooldown period before returning to wander.";
                          Printed "Transitioning to 1"].
Proof.
  intros fuel r H r0 r1 r2.
  assert (E : update K env fuel r = Some (exec (transition_to WANDER) r2)).
  { rewrite update_EXTINGUISH by exact H.
    subst r0 r1 r2. unfold announced. rewrite H. reflexivity. }
  split; [exact E|]. split; [reflexivity|]. split.
  - subst r0 r1. unfold_ops. simpl. norm_log. reflexivity.
  - intros r' Hr'. rewrite E in Hr'. apply Some_eq in Hr'; subst.
    subst r0 r1 r2. unfold_ops. simpl. norm_log. split; reflexivity.
Qed.

(** C3.  [update] from [WANDER], when the third flame check of the scan is
    the first to see a flame: the step ends in [FIRE_DETECTION], its turn
    commands are two turns of 45, and it drives no straight at all (in
    particular [wander] does not run). *)
Theorem update_wander_flame_at_third_check :
  forall (fuel : nat) (r : Robot),
    let c := ambient_reads r in
    current_state r = WANDER ->
    ambient_seq env c <= FLAME_DETECTION_THRESHOLD K ->
    ambient_seq env (c + 1) <= FLAME_DETECTION_THRESHOLD K ->
    FLAME_DETECTION_THRESHOLD K < ambient_seq env (c + 2) ->
    update K env fuel r =
      Some (mkRobot FIRE_DETECTION (touch_reads r) (side_reads r)
                    (c + 3) (color_reads r)
                    (log r ++ [Printed "Current State: 1";
                               Ambient (ambient_seq env c); Turn 45;
                               Ambient (ambient_seq env (c + 1)); Turn 45;
                               Ambient (ambient_seq env (c + 2));
                               Printed "Flame detected during initial scan";
                               Printed "Transitioning to 3"])) /\
    forall r' : Robot,
      update K env fuel r = Some r' ->
      current_state r' = FIRE_DETECTION /\
      turns (skipn (List.length (log r)) (log r')) = [45; 45] /\
      straights (skipn (List.length (log r)) (log r')) = [] /\
      filter is_motion (skipn (List.length (log r)) (log r')) = [Turn 45; Turn 45].
Proof.
  intros fuel r c Hst H0 H1 H2. subst c.
  assert (Hno : no_flame K env (ambient_reads (announced r)) 2).
  { intros i Hi. simpl.
    destruct i as [|[|i]]; [rewrite Nat.add_0_r; exact H0 | exact H1 | lia]. }
  assert (Hf : FLAME_DETECTION_THRESHOLD K
               < ambient_seq env (ambient_reads (announced r) + 2))
    by exact H2.
  assert (E : update K env fuel r =
      Some (mkRobot FIRE_DETECTION (touch_reads r) (side_reads r)
                    (ambient_reads r + 3) (color_reads r)
                    (log r ++ [Printed "Current State: 1";
                               Ambient (ambient_seq env (ambient_reads r)); Turn 45;
                               Ambient (ambient_seq env (ambient_reads r + 1)); Turn 45;
                               Ambient (ambient_seq env (ambient_reads r + 2));
                               Printed "Flame detected during initial scan";
                               Printed "Transitioning to 3"]))).
  { rewrite update_WANDER by exact Hst.
    unfold initial_scan_for_flame.
    rewrite (scan_loop_found K env 8 2 (announced r) ltac:(lia) Hno Hf).
    cbv beta iota. simpl negb. cbv iota.
    unfold announced. rewrite Hst. unfold_ops. simpl.
    norm_log. same_up_to_cursor. }
  split; [exact E|].
  intros r' Hr'. rewrite E in Hr'. apply Some_eq in Hr'; subst. simpl.
  rewrite skipn_app, skipn_all, Nat.sub_diag. simpl.
  repeat split; reflexivity.
Qed.

(** Every completed step follows an edge of the dispatch chain. *)
Lemma update_dispatch_edge (fuel : nat) (r r' : Robot) :
  update K env fuel r = Some r' ->
  dispatch_edge (current_state r) (current_state r') = true.
Proof.
  intros H. destruct (current_state r) eqn:Hs.
  - rewrite update_WANDER in H by exact Hs.
    pose proof (scan_loop_state K env 8 (announced r)) as Hscan.
    unfold exec in Hscan. fold (initial_scan_for_flame K env) in Hscan.
    destruct (initial_scan_for_flame K env (announced r)) as [found r1].
    simpl in Hscan. rewrite Hs in Hscan.
    destruct found; simpl in H; apply Some_eq in H; subst.
    + reflexivity.
    + change (exec (print "No flame detected during initial scan. Wandering..." ;;
                    wander K env) r1)
        with (exec (wander K env)
                (exec (print "No flame detected during initial scan. Wandering...") r1)).
      rewrite wander_state. simpl touch_reads.
      destruct (touched_seq env (touch_reads r1)); [reflexivity|].
      simpl. rewrite Hscan. reflexivity.
  - rewrite update_WALL_FOLLOWING in H by exact Hs.
    pose proof (wall_following_state (announced r)) as Hw.
    rewrite announced_state, Hs in Hw.
    unfold bind at 1 in H. unfold exec in Hw.
    destruct (wall_following K env (announced r)) as [u r1]. simpl in Hw.
    unfold detect_goal, color_distance_sensor_color, bind, ret in H.
    destruct (Color_eqb (color_seq env (color_reads r1)) (GOAL_COLOR K));
      apply Some_eq in H; subst; simpl; [reflexivity|].
    rewrite Hw. reflexivity.
  - rewrite update_FIRE_DETECTION in H by exact Hs.
    destruct (approach_flame K env fuel (announced r)) as [r1|]; [|discriminate].
    apply Some_eq in H; subst. reflexivity.
  - rewrite update_EXTINGUISH in H by exact Hs.
    apply Some_eq in H; subst. reflexivity.
  - rewrite update_COMPLETE in H by exact Hs.
    apply Some_eq in H; subst. simpl. rewrite Hs. reflexivity.
Qed.

(** A completed run from [__init__] ends in a reachable robot. *)
Lemma run_reachable (fuels : list nat) :
  forall r r' : Robot,
    reachable K env r -> run K env fuels r = Some r' -> reachable K env r'.
Proof.
  induction fuels as [|fuel fuels IH]; intros r r' Hr H; simpl in H.
  - apply Some_eq in H; subst. exact Hr.
  - destruct (update K env fuel r) as [r1|] eqn:E; [|discriminate].
    apply (IH r1); [|exact H].
    eapply reachable_update; eassumption.
Qed.

Lemma reachable_not_COMPLETE (r : Robot) :
  reachable K env r -> current_state r <> COMPLETE.
Proof.
  induction 1 as [|fuel r r' Hr IH Hu].
  - discriminate.
  - apply update_dispatch_edge in Hu.
    destruct (current_state r), (current_state r'); try discriminate; congruence.
Qed.

End Dispatch.

(** ** Wall following: the proportional branch *)

Section WallFollowing.

Variable K : Constants.





End WallFollowing.

(** ** The state machine as a whole *)

(** Constants and sensor sequences for the examples. *)
Definition K0 : Constants :=
  mkConstants 56 112 100 50 2 200 30 50 RED 500 3000 440 1000.

(** Nothing in sight: no contact, far wall, dim light, white floor. *)
Definition env_quiet : Sensors :=
  mkSensors (fun _ => false) (fun _ => 300) (fun _ => 10) (fun _ => WHITE).

(** Contact at every read. *)
Definition env_contact : Sensors :=
  mkSensors (fun _ => true) (fun _ => 300) (fun _ => 10) (fun _ => WHITE).

(** Contact at every read, and the goal tile under the robot. *)
Definition env_contact_goal : Sensors :=
  mkSensors (fun _ => true) (fun _ => 300) (fun _ => 10) (fun _ => RED).

(** A flame from the third ambient read on, and the goal tile under the
    robot. *)
Definition env_flame : Sensors :=
  mkSensors (fun _ => false) (fun _ => 300)
            (fun n => if (n <? 2)%nat then 10 else 90) (fun _ => RED).

(** A wall on the right at the given distance. *)
Definition env_wall (d : Z) : Sensors :=
  mkSensors (fun _ => false) (fun _ => d) (fun _ => 10) (fun _ => WHITE).

(** The robot a run leaves, [Robot_init] when the run does not complete. *)
Definition after_run (K : Constants) (env : Sensors) (fuels : list nat) : Robot :=
  match run K env fuels Robot_init with
  | Some r => r
  | None => Robot_init
  end.

Lemma after_run_reachable (K : Constants) (env : Sensors) (fuels : list nat) :
  reachable K env (after_run K env fuels).
Proof.
  unfold after_run. destruct (run K env fuels Robot_init) as [r|] eqn:E.
  - eapply run_reachable; [apply reachable_init | exact E].
  - apply reachable_init.
Qed.

(** An edge is taken when some completed step of some run takes it. *)
Definition edge_taken (s s' : RobotState) : Prop :=
  exists (K : Constants) (env : Sensors) (fuel : nat) (r r' : Robot),
    reachable K env r /\
    current_state r = s /\
    update K env fuel r = Some r' /\
    current_state r' = s'.

Lemma edge_taken_after_run (K : Constants) (env : Sensors)
      (fuels : list nat) (fuel : nat) (r' : Robot) (s s' : RobotState) :
  current_state (after_run K env fuels) = s ->
  update K env fuel (after_run K env fuels) = Some r' ->
  current_state r' = s' ->
  edge_taken s s'.
Proof.
  intros Hs Hu Hs'. exists K, env, fuel, (after_run K env fuels), r'.
  split; [apply after_run_reachable|]. auto.
Qed.

(** Each edge of the dispatch chain out of a state other than [COMPLETE] is
    taken by a run from [__init__]. *)
Lemma dispatch_edges_taken (s s' : RobotState) :
  s <> COMPLETE -> dispatch_edge s s' = true -> edge_taken s s'.
Proof.
  intros Hs He. destruct s, s'; try discriminate; try congruence.
  - eapply (edge_taken_after_run K0 env_quiet [] 0%nat); vm_compute; reflexivity.
  - eapply (edge_taken_after_run K0 env_contact [] 0%nat); vm_compute; reflexivity.
  - eapply (edge_taken_after_run K0 env_flame [] 0%nat); vm_compute; reflexivity.
  - eapply (edge_taken_after_run K0 env_contact [0%nat] 0%nat); vm_compute; reflexivity.
  - eapply (edge_taken_after_run K0 env_contact_goal [0%nat] 0%nat);
      vm_compute; reflexivity.
  - eapply (edge_taken_after_run K0 env_flame [0%nat] 1%nat); vm_compute; reflexivity.
  - eapply (edge_taken_after_run K0 env_flame [0%nat; 1%nat] 0%nat);
      vm_compute; reflexivity.
Qed.

(** C7, as the code has it.  Every completed step of [update] follows an
    edge of the dispatch chain: [WANDER] to [WANDER], [WALL_FOLLOWING] or
    [FIRE_DETECTION]; [WALL_FOLLOWING] to [WALL_FOLLOWING] or
    [FIRE_DETECTION]; [FIRE_DETECTION] to [EXTINGUISH]; [EXTINGUISH] to
    [WANDER]; and each of these edges is taken by some run from [__init__].
    In particular [WANDER] is entered from [WANDER] and from [EXTINGUISH]
    only, never from [WALL_FOLLOWING]. *)
Theorem update_steps_are_dispatch_edges :
  (forall (K : Constants) (env : Sensors) (fuel : nat) (r r' : Robot),
     update K env fuel r = Some r' ->
     dispatch_edge (current_state r) (current_state r') = true) /\
  (forall s s' : RobotState,
     s <> COMPLETE -> dispatch_edge s s' = true -> edge_taken s s') /\
  (forall (K : Constants) (env : Sensors) (fuel : nat) (r r' : Robot),
     update K env fuel r = Some r' ->
     current_state r' = WANDER ->
     current_state r = WANDER \/ current_state r = EXTINGUISH).
Proof.
  split; [|split].
  - intros K env fuel r r' H. eapply update_dispatch_edge; exact H.
  - exact dispatch_edges_taken.
  - intros K env fuel r r' H Hw.
    apply update_dispatch_edge in H. rewrite Hw in H.
    destruct (current_state r); try discriminate; auto.
Qed.

(** C7 as stated fails: no step of [update] goes from [WALL_FOLLOWING] back
    to [WANDER]. *)
Lemma no_step_from_wall_following_to_wander :
  ~ (exists (K : Constants) (env : Sensors) (fuel : nat) (r r' : Robot),
       current_state r = WALL_FOLLOWING /\
       update K env fuel r = Some r' /\
       current_state r' = WANDER).
Proof.
  intros (K & env & fuel & r & r' & Hs & Hu & Hs').
  apply update_dispatch_edge in Hu. rewrite Hs, Hs' in Hu. discriminate.
Qed.

(** C9.  A robot the control loop can be in is in one of [WANDER],
    [WALL_FOLLOWING], [FIRE_DETECTION], [EXTINGUISH], never in [COMPLETE].
    A completed step from [FIRE_DETECTION] has [approach_flame] return in
    [COMPLETE] and overwrites it with [EXTINGUISH]; a step from [EXTINGUISH]
    has [extinguish] store [COMPLETE] and overwrites it with [WANDER]. *)
Theorem reachable_never_COMPLETE :
  forall (K : Constants) (env : Sensors) (r : Robot),
    reachable K env r ->
    In (current_state r) [WANDER; WALL_FOLLOWING; FIRE_DETECTION; EXTINGUISH] /\
    current_state r <> COMPLETE /\
    (forall (fuel : nat) (r' : Robot),
       current_state r = FIRE_DETECTION ->
       update K env fuel r = Some r' ->
       exists r1 : Robot,
         approach_flame K env fuel (announced r) = Some r1 /\
         current_state r1 = COMPLETE /\
         r' = exec (transition_to EXTINGUISH) r1 /\
         current_state r' = EXTINGUISH) /\
    (forall (fuel : nat) (r' : Robot),
       current_state r = EXTINGUISH ->
       update K env fuel r = Some r' ->
       let r1 := exec (extinguish K) (announced r) in
       current_state r1 = COMPLETE /\
       r' = exec (transition_to WANDER)
              (exec (print "Cooldown period before returning to wander.") r1) /\
       current_state r' = WANDER).
Proof.
  intros K env r Hr.
  pose proof (reachable_not_COMPLETE K env r Hr) as Hn.
  split; [|split; [exact Hn|split]].
  - simpl. destruct (current_state r); auto. congruence.
  - intros fuel r' Hs Hu. rewrite update_FIRE_DETECTION in Hu by exact Hs.
    destruct (approach_flame K env fuel (announced r)) as [r1|] eqn:E;
      [|discriminate].
    apply Some_eq in Hu; subst. exists r1.
    repeat split. eapply approach_flame_state. exact E.
  - intros fuel r' Hs Hu r1. rewrite update_EXTINGUISH in Hu by exact Hs.
    apply Some_eq in Hu; subst. repeat split.
Qed.

(** ** The statements at concrete robots *)

(** A robot in [EXTINGUISH]: two steps after [__init__], with a flame in
    sight and the goal tile under the robot. *)
Definition robot_extinguishing : Robot := after_run K0 env_flame [0%nat; 1%nat].

(** A robot in [FIRE_DETECTION]: one step after [__init__]. *)
Definition robot_at_fire : Robot := after_run K0 env_flame [0%nat].

(** A robot with [current_state] set to [COMPLETE] by hand. *)
Definition robot_complete : Robot := mkRobot COMPLETE 0 0 0 0 [UseGyro true].

(** The step from [EXTINGUISH] of that run ends in [WANDER]. *)
Lemma update_extinguish_then_wander_witness :
  current_state robot_extinguishing = EXTINGUISH /\
  exists r' : Robot,
    update K0 env_flame 0 robot_extinguishing = Some r' /\
    current_state r' = WANDER.
Proof.
  assert (H : current_state robot_extinguishing = EXTINGUISH) by reflexivity.
  split; [exact H|].
  destruct (update_extinguish_then_wander K0 env_flame 0 robot_extinguishing H)
    as (E & _ & _ & Hr').
  eexists. split; [exact E|]. apply (Hr' _ E).
Defined.

(** The scan with nothing in sight, with a flame at the third check, and
    run a second time. *)
Lemma initial_scan_for_flame_sweep_witness :
  (no_flame K0 env_quiet 0 8 /\
   fst (initial_scan_for_flame K0 env_quiet Robot_init) = false) /\
  ((2 < 8)%nat /\ no_flame K0 env_flame 0 2 /\
   FLAME_DETECTION_THRESHOLD K0 < ambient_seq env_flame (0 + 2) /\
   fst (initial_scan_for_flame K0 env_flame Robot_init) = true) /\
  ((forall i : nat, (i < 8)%nat ->
      ambient_seq env_quiet
        (ambient_reads (exec (initial_scan_for_flame K0 env_quiet) Robot_init) + i)
      = ambient_seq env_quiet (ambient_reads Robot_init + i)) /\
   emitted (initial_scan_for_flame K0 env_quiet)
     (exec (initial_scan_for_flame K0 env_quiet) Robot_init)
   = emitted (initial_scan_for_flame K0 env_quiet) Robot_init).
Proof.
  assert (Hq : forall c, no_flame K0 env_quiet c 8)
    by (intros c i Hi; simpl; lia).
  assert (Hf : no_flame K0 env_flame 0 2)
    by (intros i Hi; destruct i as [|[|i]]; simpl; lia).
  assert (Hlt : FLAME_DETECTION_THRESHOLD K0 < ambient_seq env_flame (0 + 2))
    by (simpl; lia).
  assert (Hsame : forall i : nat, (i < 8)%nat ->
      ambient_seq env_quiet
        (ambient_reads (exec (initial_scan_for_flame K0 env_quiet) Robot_init) + i)
      = ambient_seq env_quiet (ambient_reads Robot_init + i))
    by (intros i Hi; reflexivity).
  split; [|split].
  - split; [apply Hq|].
    rewrite (proj1 (initial_scan_for_flame_sweep K0 env_quiet Robot_init Robot_init)
               (Hq 0%nat)).
    reflexivity.
  - split; [lia|]. split; [exact Hf|]. split; [exact Hlt|].
    rewrite (proj1 (proj2 (initial_scan_for_flame_sweep K0 env_flame
                             Robot_init Robot_init))
               2%nat ltac:(lia) Hf Hlt).
    reflexivity.
  - split; [exact Hsame|].
    apply (proj2 (proj2 (proj2 (initial_scan_for_flame_sweep K0 env_quiet
             Robot_init (exec (initial_scan_for_flame K0 env_quiet) Robot_init))))
             Hsame).
Defined.

(** The first step after [__init__] with a flame at the third check. *)
Lemma update_wander_flame_at_third_check_witness :
  current_state Robot_init = WANDER /\
  ambient_seq env_flame 0 <= FLAME_DETECTION_THRESHOLD K0 /\
  ambient_seq env_flame 1 <= FLAME_DETECTION_THRESHOLD K0 /\
  FLAME_DETECTION_THRESHOLD K0 < ambient_seq env_flame 2 /\
  update K0 env_flame 0 Robot_init =
    Some (mkRobot FIRE_DETECTION 0 0 3 0
            [UseGyro true; Printed "Current State: 1";
             Ambient 10; Turn 45; Ambient 10; Turn 45; Ambient 90;
             Printed "Flame detected during initial scan";
             Printed "Transitioning to 3"]).
Proof.
  assert (H0 : ambient_seq env_flame 0 <= FLAME_DETECTION_THRESHOLD K0)
    by (simpl; lia).
  assert (H1 : ambient_seq env_flame 1 <= FLAME_DETECTION_THRESHOLD K0)
    by (simpl; lia).
  assert (H2 : FLAME_DETECTION_THRESHOLD K0 < ambient_seq env_flame 2)
    by (simpl; lia).
  split; [reflexivity|]. split; [exact H0|]. split; [exact H1|].
  split; [exact H2|].
  exact (proj1 (update_wander_flame_at_third_check K0 env_flame 0 Robot_init
                  eq_refl H0 H1 H2)).
Defined.




(** [approach_flame] on the goal tile. *)
Lemma approach_flame_goal_at_once_witness :
  fst (detect_goal K0 env_flame (announced robot_at_fire)) = true /\
  approach_flame K0 env_flame 1 (announced robot_at_fire) =
    Some (exec (extinguish K0)
            (exec (detect_goal K0 env_flame) (announced robot_at_fire))) /\
  filter is_motion
    (skipn (List.length (log (announced robot_at_fire)))
       (log (exec (detect_goal K0 env_flame) (announced robot_at_fire)))) = [].
Proof.
  assert (H : fst (detect_goal K0 env_flame (announced robot_at_fire)) = true)
    by reflexivity.
  split; [exact H|].
  destruct (approach_flame_goal_at_once K0 env_flame 0 (announced robot_at_fire) H)
    as (E & _ & M & _).
  split; [exact E | exact M].
Defined.

(** The first step after [__init__] with the touch sensor in contact takes
    the edge from [WANDER] to [WALL_FOLLOWING]. *)
Lemma update_steps_are_dispatch_edges_witness :
  update K0 env_contact 0 Robot_init =
    Some (exec (print "No flame detected during initial scan. Wandering..." ;;
                wander K0 env_contact)
            (exec (initial_scan_for_flame K0 env_contact) (announced Robot_init))) /\
  dispatch_edge (current_state Robot_init)
    (current_state
       (exec (print "No flame detected during initial scan. Wandering..." ;;
              wander K0 env_contact)
          (exec (initial_scan_for_flame K0 env_contact) (announced Robot_init))))
  = true /\
  WANDER <> COMPLETE /\
  dispatch_edge WANDER WALL_FOLLOWING = true /\
  edge_taken WANDER WALL_FOLLOWING.
Proof.
  assert (E : update K0 env_contact 0 Robot_init =
    Some (exec (print "No flame detected during initial scan. Wandering..." ;;
                wander K0 env_contact)
            (exec (initial_scan_for_flame K0 env_contact) (announced Robot_init))))
    by reflexivity.
  assert (N : WANDER <> COMPLETE) by discriminate.
  split; [exact E|].
  split; [exact (proj1 update_steps_are_dispatch_edges _ _ _ _ _ E)|].
  split; [exact N|]. split; [reflexivity|].
  exact (proj1 (proj2 update_steps_are_dispatch_edges)
           WANDER WALL_FOLLOWING N eq_refl).
Defined.

(** Two robots of the run with a flame in sight, and the step from
    [FIRE_DETECTION]. *)
Lemma reachable_never_COMPLETE_witness :
  reachable K0 env_flame robot_extinguishing /\
  current_state robot_extinguishing <> COMPLETE /\
  reachable K0 env_flame robot_at_fire /\
  exists r1 : Robot,
    approach_flame K0 env_flame 1 (announced robot_at_fire) = Some r1 /\
    current_state r1 = COMPLETE /\
    current_state (exec (transition_to EXTINGUISH) r1) = EXTINGUISH.
Proof.
  assert (R2 : reachable K0 env_flame robot_extinguishing)
    by apply after_run_reachable.
  assert (R1 : reachable K0 env_flame robot_at_fire)
    by apply after_run_reachable.
  split; [exact R2|].
  split; [exact (proj1 (proj2 (reachable_never_COMPLETE K0 env_flame _ R2)))|].
  split; [exact R1|].
  destruct (proj1 (proj2 (proj2 (reachable_never_COMPLETE K0 env_flame _ R1)))
              1%nat _ eq_refl eq_refl)
    as (r1 & E & C & _ & X).
  exists r1. split; [exact E|]. split; [exact C | exact X].
Defined.

(** [update] on a robot in [COMPLETE]. *)
Lemma update_complete_no_branch_witness :
  current_state robot_complete = COMPLETE /\
  update K0 env_contact 3 robot_complete =
    Some (mkRobot COMPLETE 0 0 0 0 [UseGyro true; Printed "Current State: 5"]).
Proof.
  split; [reflexivity|].
  exact (proj1 (update_complete_no_branch K0 env_contact 3 robot_complete eq_refl)).
Defined.

(** * The policies and the step in full *)

(** ** Vocabulary *)

(** The events of [extinguish], lines 110-114. *)
Definition extinguish_events (K : Constants) : list event :=
  [Printed "Extinguishing fire...";
   RunTime (FAN_SPEED K) (FAN_RUN_TIME K);
   Printed "Cooling down after extinguishing fire.";
   LightOn GREEN].

(** The colour read [c + k] is the first from read [c] on to show the goal
    tile. *)
Definition first_goal (K : Constants) (env : Sensors) (c k : nat) : Prop :=
  (forall i : nat, (i < k)%nat -> color_seq env (c + i) <> GOAL_COLOR K) /\
  color_seq env (c + k) = GOAL_COLOR K.

(** One of the colour reads [c], ..., [c + n - 1] shows the goal tile. *)
Definition goal_within (K : Constants) (env : Sensors) (c n : nat) : Prop :=
  exists k : nat, (k < n)%nat /\ color_seq env (c + k) = GOAL_COLOR K.

(** The events of [k] rounds of the loop of [approach_flame] (lines 73-79)
    that start at colour read [cc] and touch read [ct]: the colour read of
    the condition, the touch read, and the back-off or the advance. *)
Fixpoint approach_rounds (K : Constants) (env : Sensors) (cc ct k : nat)
  : list event :=
  match k with
  | O => []
  | S k' =>
      Colour (color_seq env cc) :: Touched (touched_seq env ct) ::
      (if touched_seq env ct
       then [Straight (- WALL_FOLLOW_STEP K); Turn (-90)]
       else [Straight (APPROACH_FLAME_STEP_DISTANCE K)]) ++
      approach_rounds K env (S cc) (S ct) k'
  end.

(** The commands to the fan, the hub light, the speaker and the gyro. *)
Definition is_fan_or_hub (e : event) : bool :=
  match e with
  | RunTime _ _ | LightOn _ | Beep _ _ | UseGyro _ => true
  | _ => false
  end.

Definition is_stop (e : event) : bool :=
  match e with
  | Stop => true
  | _ => false
  end.

(** ** [wall_following], branch by branch *)

Section Policies.

Variable K : Constants.
Variable env : Sensors.

(** X1.  [wall_following] tests in this order: with contact it stops, backs
    off by [WALL_FOLLOW_STEP] and turns by -90 without reading the side
    sensor; with no contact and a side distance at or above
    [WALL_FOLLOW_MIN_DISTANCE] it turns by -90 and drives no straight; with
    no contact and a side distance below it, it reads the side sensor once
    more, turns by the correction for that reading and advances
    [WALL_FOLLOW_STEP].  In all three cases the touch sensor is read once
    and the ambient and colour sensors are not read. *)
Theorem wall_following_three_branches :
  forall r : Robot,
    let r' := exec (wall_following K env) r in
    let d := distance_seq env (side_reads r) in
    (touched_seq env (touch_reads r) = true ->
     log r' = log r ++ [Touched true; Stop;
                        Straight (- WALL_FOLLOW_STEP K); Turn (-90)] /\
     side_reads r' = side_reads r) /\
    (touched_seq env (touch_reads r) = false ->
     WALL_FOLLOW_MIN_DISTANCE K <= d ->
     log r' = log r ++ [Touched false; Distance d; Turn (-90)] /\
     side_reads r' = S (side_reads r)) /\
    (touched_seq env (touch_reads r) = false ->
     d < WALL_FOLLOW_MIN_DISTANCE K ->
     log r' = log r ++ [Touched false; Distance d;
                        Distance (distance_seq env (S (side_reads r)));
                        Turn (angle_adjustment K
                                (distance_seq env (S (side_reads r))));
                        Straight (WALL_FOLLOW_STEP K)] /\
     side_reads r' = S (S (side_reads r))) /\
    touch_reads r' = S (touch_reads r) /\
    ambient_reads r' = ambient_reads r /\
    color_reads r' = color_reads r.
Proof.
  intros r r' d. subst r' d.
  split; [|split; [|split]].
  - intros Ht. unfold_ops. rewrite Ht. norm_log. split; reflexivity.
  - intros Ht Hd. apply Z.ltb_ge in Hd. unfold_ops. rewrite Ht, Hd.
    norm_log. split; reflexivity.
  - intros Ht Hd. apply Z.ltb_lt in Hd. unfold_ops. rewrite Ht, Hd.
    norm_log. split; reflexivity.
  - unfold_ops. case_if; [repeat split|]. case_if; repeat split.
Qed.

(** ** [approach_flame] *)

(** One round of the loop when the colour read does not show the goal. *)
Lemma approach_flame_round (fuel : nat) (r : Robot) :
  color_seq env (color_reads r) <> GOAL_COLOR K ->
  approach_flame K env (S fuel) r =
  approach_flame K env fuel
    (mkRobot (current_state r) (S (touch_reads r)) (side_reads r)
             (ambient_reads r) (S (color_reads r))
             (log r ++ approach_rounds K env (color_reads r) (touch_reads r) 1)).
Proof.
  intros Hc. rewrite approach_flame_S.
  assert (Hb : Color_eqb (color_seq env (color_reads r)) (GOAL_COLOR K) = false).
  { destruct (Color_eqb (color_seq env (color_reads r)) (GOAL_COLOR K)) eqn:E;
      [|reflexivity]. apply Color_eqb_eq in E. contradiction. }
  unfold_ops. rewrite Hb. simpl approach_rounds.
  case_if; norm_log; reflexivity.
Qed.

(** The loop is not left while the colour reads do not show the goal. *)
Lemma approach_flame_no_goal (fuel : nat) :
  forall r : Robot,
    (forall i : nat, (i < fuel)%nat ->
       color_seq env (color_reads r + i) <> GOAL_COLOR K) ->
    approach_flame K env fuel r = None.
Proof.
  induction fuel as [|fuel IH]; intros r H; [reflexivity|].
  rewrite approach_flame_round.
  - apply IH. intros i Hi. cbn [color_reads].
    rewrite Nat.add_succ_l, <- Nat.add_succ_r. apply H. lia.
  - specialize (H 0%nat). rewrite Nat.add_0_r in H. apply H. lia.
Qed.

Lemma approach_rounds_S (cc ct k : nat) :
  approach_rounds K env cc ct (S k) =
  approach_rounds K env cc ct 1 ++ approach_rounds K env (S cc) (S ct) k.
Proof.
  simpl. rewrite app_nil_r. case_if; reflexivity.
Qed.

(** The loop when the colour read [k] ahead is the first to show the goal:
    [k] rounds, the colour read that leaves the loop, and [extinguish]. *)
Lemma approach_flame_found (k : nat) :
  forall r : Robot,
    first_goal K env (color_reads r) k ->
    approach_flame K env (S k) r =
    Some (mkRobot COMPLETE (touch_reads r + k) (side_reads r)
                  (ambient_reads r) (color_reads r + k + 1)
                  (log r ++
                   approach_rounds K env (color_reads r) (touch_reads r) k ++
                   Colour (GOAL_COLOR K) :: extinguish_events K)).
Proof.
  induction k as [|k IH]; intros r [Hno Hgoal].
  - rewrite Nat.add_0_r in Hgoal. rewrite approach_flame_S.
    unfold_ops. rewrite Hgoal, (proj2 (Color_eqb_eq _ _) eq_refl).
    unfold extinguish_events. norm_log. same_up_to_cursor.
  - rewrite approach_flame_round.
    + rewrite IH.
      * cbn [current_state touch_reads side_reads ambient_reads color_reads log].
        rewrite (approach_rounds_S (color_reads r)). norm_log.
        same_up_to_cursor.
      * cbn [color_reads]. split.
        -- intros i Hi. rewrite Nat.add_succ_l, <- Nat.add_succ_r.
           apply Hno. lia.
        -- rewrite Nat.add_succ_l, <- Nat.add_succ_r. exact Hgoal.
    + specialize (Hno 0%nat). rewrite Nat.add_0_r in Hno. apply Hno. lia.
Qed.

(** Among the colour reads ahead there is a first that shows the goal, or
    none does. *)
Lemma first_goal_or_none (c n : nat) :
  (forall i : nat, (i < n)%nat -> color_seq env (c + i) <> GOAL_COLOR K) \/
  exists k : nat, (k < n)%nat /\ first_goal K env c k.
Proof.
  induction n as [|n IH].
  - left. intros i Hi. lia.
  - destruct IH as [Hno | (k & Hk & Hf)].
    + destruct (Color_eqb (color_seq env (c + n)) (GOAL_COLOR K)) eqn:E.
      * right. exists n. split; [lia|]. split; [exact Hno|].
        apply Color_eqb_eq. exact E.
      * left. intros i Hi Heq. destruct (Nat.eq_dec i n) as [-> | Hne].
        -- apply Color_eqb_eq in Heq. congruence.
        -- apply (Hno i); [lia | exact Heq].
    + right. exists k. split; [lia | exact Hf].
Qed.

(** What the rounds of the loop never contain, and what their turns and
    straight drives are. *)
Lemma approach_rounds_no_stop (cc ct k : nat) :
  filter is_stop (approach_rounds K env cc ct k) = [].
Proof.
  revert cc ct. induction k as [|k IH]; intros cc ct; [reflexivity|].
  simpl. case_if; simpl; apply IH.
Qed.

Lemma approach_rounds_no_fan_or_hub (cc ct k : nat) :
  filter is_fan_or_hub (approach_rounds K env cc ct k) = [].
Proof.
  revert cc ct. induction k as [|k IH]; intros cc ct; [reflexivity|].
  simpl. case_if; simpl; apply IH.
Qed.

Lemma approach_rounds_turns (cc ct k : nat) :
  Forall (fun a => a = -90) (turns (approach_rounds K env cc ct k)) /\
  (List.length (turns (approach_rounds K env cc ct k)) <= k)%nat.
Proof.
  revert cc ct. induction k as [|k IH]; intros cc ct.
  - split; [constructor | simpl; lia].
  - destruct (IH (S cc) (S ct)) as [IH1 IH2]. simpl. case_if; simpl.
    + split; [constructor; [reflexivity | exact IH1] | lia].
    + split; [exact IH1 | lia].
Qed.

Lemma approach_rounds_straights (cc ct k : nat) :
  Forall (fun d => d = - WALL_FOLLOW_STEP K \/
                   d = APPROACH_FLAME_STEP_DISTANCE K)
         (straights (approach_rounds K env cc ct k)) /\
  List.length (straights (approach_rounds K env cc ct k)) = k.
Proof.
  revert cc ct. induction k as [|k IH]; intros cc ct.
  - split; [constructor | reflexivity].
  - destruct (IH (S cc) (S ct)) as [IH1 IH2]. simpl. case_if; simpl.
    + split; [constructor; [left; reflexivity | exact IH1] | lia].
    + split; [constructor; [right; reflexivity | exact IH1] | lia].
Qed.

Lemma straights_app (l1 l2 : list event) :
  straights (l1 ++ l2) = straights l1 ++ straights l2.
Proof.
  induction l1 as [|e l1 IH]; simpl; [reflexivity|].
  destruct e; simpl; rewrite IH; reflexivity.
Qed.

(** X2.  [approach_flame] leaves its loop within [fuel] evaluations of the
    condition exactly when one of the next [fuel] colour reads shows the
    goal tile: with the goal never in sight the call does not return. *)
Theorem approach_flame_returns_iff_goal_seen :
  forall (fuel : nat) (r : Robot),
    (exists r1 : Robot, approach_flame K env fuel r = Some r1) <->
    goal_within K env (color_reads r) fuel.
Proof.
  intros fuel r.
  destruct (first_goal_or_none (color_reads r) fuel) as [Hno | (k & Hk & Hf)].
  - split.
    + intros [r1 H]. rewrite (approach_flame_no_goal fuel r Hno) in H.
      discriminate.
    + intros (k & Hk & Hg). exfalso. exact (Hno k Hk Hg).
  - split.
    + intros _. exists k. split; [exact Hk | exact (proj2 Hf)].
    + intros _. eexists.
      replace fuel with (S k + (fuel - S k))%nat by lia.
      apply approach_flame_fuel_mono. apply approach_flame_found. exact Hf.
Qed.

(** X3.  A call of [approach_flame] that returns has made [k] rounds of its
    loop, [k] being the number of colour reads before the first that shows
    the goal: [k + 1] colour reads, [k] touch reads, no read of the side or
    ambient sensor, and the state [COMPLETE].  It never stops the drive
    base; its turns are all of -90, at most one a round; it drives one
    straight a round, by minus [WALL_FOLLOW_STEP] or by
    [APPROACH_FLAME_STEP_DISTANCE]; and it runs the fan once, at
    [FAN_SPEED] for [FAN_RUN_TIME], after the last read. *)
Theorem approach_flame_rounds :
  forall (fuel : nat) (r r1 : Robot),
    approach_flame K env fuel r = Some r1 ->
    exists k : nat,
      (k < fuel)%nat /\
      first_goal K env (color_reads r) k /\
      let evs := approach_rounds K env (color_reads r) (touch_reads r) k ++
                 Colour (GOAL_COLOR K) :: extinguish_events K in
      r1 = mkRobot COMPLETE (touch_reads r + k) (side_reads r)
                   (ambient_reads r) (color_reads r + k + 1)
                   (log r ++ evs) /\
      filter is_stop evs = [] /\
      filter is_fan_or_hub evs =
        [RunTime (FAN_SPEED K) (FAN_RUN_TIME K); LightOn GREEN] /\
      Forall (fun a => a = -90) (turns evs) /\
      (List.length (turns evs) <= k)%nat /\
      Forall (fun d => d = - WALL_FOLLOW_STEP K \/
                       d = APPROACH_FLAME_STEP_DISTANCE K)
             (straights evs) /\
      List.length (straights evs) = k.
Proof.
  intros fuel r r1 H.
  destruct (first_goal_or_none (color_reads r) fuel) as [Hno | (k & Hk & Hf)].
  { rewrite (approach_flame_no_goal fuel r Hno) in H. discriminate. }
  exists k. split; [exact Hk|]. split; [exact Hf|].
  pose proof (approach_flame_found k r Hf) as E.
  apply (approach_flame_fuel_mono K env (S k) _ _ (fuel - S k)) in E.
  replace (S k + (fuel - S k))%nat with fuel in E by lia.
  rewrite E in H. apply Some_eq in H. subst r1.
  cbv zeta. split; [reflexivity|].
  rewrite !filter_app, turns_app, straights_app.
  rewrite approach_rounds_no_stop, approach_rounds_no_fan_or_hub.
  destruct (approach_rounds_turns (color_reads r) (touch_reads r) k) as [T1 T2].
  destruct (approach_rounds_straights (color_reads r) (touch_reads r) k)
    as [S1 S2].
  simpl. rewrite !app_nil_r.
  repeat split; assumption.
Qed.

End Policies.

(** ** The step of [update], state by state *)

(** Some reading among the ambient reads [c], ..., [c + n - 1] is above
    [FLAME_DETECTION_THRESHOLD]. *)
Definition flame_ahead (K : Constants) (env : Sensors) (c n : nat) : bool :=
  existsb (fun i => ambient_seq env i >? FLAME_DETECTION_THRESHOLD K) (seq c n).

(** The state a completed step of [update] ends in, as the guards of lines
    131-150 and of [wander] decide it from the readings ahead. *)
Definition next_state (K : Constants) (env : Sensors) (r : Robot) : RobotState :=
  match current_state r with
  | WANDER =>
      if flame_ahead K env (ambient_reads r) 8 then FIRE_DETECTION
      else if touched_seq env (touch_reads r) then WALL_FOLLOWING
      else WANDER
  | WALL_FOLLOWING =>
      if Color_eqb (color_seq env (color_reads r)) (GOAL_COLOR K)
      then FIRE_DETECTION else WALL_FOLLOWING
  | FIRE_DETECTION => EXTINGUISH
  | EXTINGUISH => WANDER
  | COMPLETE => COMPLETE
  end.

(** The events a step adds to the log. *)
Definition step_events (r r' : Robot) : list event :=
  skipn (List.length (log r)) (log r').

Section Step.

Variable K : Constants.
Variable env : Sensors.

Lemma step_events_app (r r' : Robot) (evs : list event) :
  log r' = log r ++ evs -> step_events r r' = evs.
Proof.
  intros H. unfold step_events. rewrite H.
  rewrite skipn_app, skipn_all, Nat.sub_diag. reflexivity.
Qed.

Lemma flame_ahead_false (c n : nat) :
  flame_ahead K env c n = false <-> no_flame K env c n.
Proof.
  unfold flame_ahead. revert c. induction n as [|n IH]; intros c.
  - split; [intros _ i Hi; lia | reflexivity].
  - simpl. rewrite orb_false_iff, IH. split.
    + intros [H0 Ht] i Hi. destruct i as [|i].
      * rewrite Nat.add_0_r. rewrite Z.gtb_ltb in H0. apply Z.ltb_ge. exact H0.
      * rewrite <- Nat.add_succ_comm. apply Ht. lia.
    + intros H. split.
      * eapply no_flame_head. exact H.
      * apply no_flame_tail. exact H.
Qed.

Lemma flame_ahead_true (c n k : nat) :
  (k < n)%nat ->
  FLAME_DETECTION_THRESHOLD K < ambient_seq env (c + k) ->
  flame_ahead K env c n = true.
Proof.
  intros Hk Hf. destruct (flame_ahead K env c n) eqn:E; [reflexivity|].
  apply flame_ahead_false in E. specialize (E k Hk). lia.
Qed.

(** The step from [WANDER] when the scan finds nothing. *)
Lemma update_WANDER_exhausted (fuel : nat) (r : Robot) :
  current_state r = WANDER ->
  no_flame K env (ambient_reads r) 8 ->
  update K env fuel r =
  Some (mkRobot
          (if touched_seq env (touch_reads r) then WALL_FOLLOWING else WANDER)
          (S (touch_reads r)) (side_reads r)
          (ambient_reads r + 8) (color_reads r)
          (log r ++
           Printed "Current State: 1" :: sweep env (ambient_reads r) 8 ++
           Printed "No flame detected during initial scan. Wandering..." ::
           (if touched_seq env (touch_reads r)
            then [Touched true; Stop; Straight (- WALL_FOLLOW_STEP K);
                  Turn (-90); Printed "Transitioning to 2"]
            else [Touched false; Straight (WANDER_DISTANCE K)]))).
Proof.
  intros Hs Hno. rewrite update_WANDER by exact Hs.
  unfold initial_scan_for_flame.
  rewrite (scan_loop_exhausted K env 8 (announced r) Hno).
  unfold_ops. rewrite Hs. case_if; norm_log; reflexivity.
Qed.

(** The step from [WANDER] when check [k] of the scan is the first to see
    a flame. *)
Lemma update_WANDER_found (fuel k : nat) (r : Robot) :
  current_state r = WANDER ->
  (k < 8)%nat ->
  no_flame K env (ambient_reads r) k ->
  FLAME_DETECTION_THRESHOLD K < ambient_seq env (ambient_reads r + k) ->
  update K env fuel r =
  Some (mkRobot FIRE_DETECTION (touch_reads r) (side_reads r)
                (ambient_reads r + k + 1) (color_reads r)
                (log r ++
                 Printed "Current State: 1" :: sweep env (ambient_reads r) k ++
                 [Ambient (ambient_seq env (ambient_reads r + k));
                  Printed "Flame detected during initial scan";
                  Printed "Transitioning to 3"])).
Proof.
  intros Hs Hk Hno Hf. rewrite update_WANDER by exact Hs.
  unfold initial_scan_for_flame.
  rewrite (scan_loop_found K env 8 k (announced r) Hk Hno Hf).
  unfold_ops. rewrite Hs. norm_log. reflexivity.
Qed.

(** The step from [WALL_FOLLOWING]: the policy, then one colour read. *)
Lemma update_WALL_FOLLOWING_result (fuel : nat) (r : Robot) :
  current_state r = WALL_FOLLOWING ->
  let w := exec (wall_following K env) (announced r) in
  let c := color_seq env (color_reads r) in
  update K env fuel r =
  Some (mkRobot
          (if Color_eqb c (GOAL_COLOR K) then FIRE_DETECTION else WALL_FOLLOWING)
          (touch_reads w) (side_reads w) (ambient_reads w)
          (S (color_reads r))
          (log w ++ Colour c ::
           (if Color_eqb c (GOAL_COLOR K)
            then [Printed "Transitioning to 3"] else []))).
Proof.
  intros Hs w c. subst w c. rewrite update_WALL_FOLLOWING by exact Hs.
  unfold_ops. rewrite Hs. repeat case_if; norm_log; reflexivity.
Qed.

(** The step from [FIRE_DETECTION] when the colour read [k] ahead is the
    first to show the goal. *)
Lemma update_FIRE_DETECTION_found (fuel k : nat) (r : Robot) :
  current_state r = FIRE_DETECTION ->
  (k < fuel)%nat ->
  first_goal K env (color_reads r) k ->
  update K env fuel r =
  Some (mkRobot EXTINGUISH (touch_reads r + k) (side_reads r)
                (ambient_reads r) (color_reads r + k + 1)
                (log r ++
                 Printed "Current State: 3" ::
                 approach_rounds K env (color_reads r) (touch_reads r) k ++
                 Colour (GOAL_COLOR K) :: extinguish_events K ++
                 [Printed "Transitioning to 4"])).
Proof.
  intros Hs Hk Hf. rewrite update_FIRE_DETECTION by exact Hs.
  pose proof (approach_flame_found K env k (announced r) Hf) as E.
  apply (approach_flame_fuel_mono K env (S k) _ _ (fuel - S k)) in E.
  replace (S k + (fuel - S k))%nat with fuel in E by lia.
  rewrite E. unfold extinguish_events. unfold_ops. rewrite Hs.
  norm_log. reflexivity.
Qed.

Lemma update_FIRE_DETECTION_blocked (fuel : nat) (r : Robot) :
  current_state r = FIRE_DETECTION ->
  (forall i : nat, (i < fuel)%nat ->
     color_seq env (color_reads r + i) <> GOAL_COLOR K) ->
  update K env fuel r = None.
Proof.
  intros Hs Hno. rewrite update_FIRE_DETECTION by exact Hs.
  rewrite (approach_flame_no_goal K env fuel (announced r) Hno). reflexivity.
Qed.

(** The step from [EXTINGUISH]. *)
Lemma update_EXTINGUISH_result (fuel : nat) (r : Robot) :
  current_state r = EXTINGUISH ->
  update K env fuel r =
  Some (mkRobot WANDER (touch_reads r) (side_reads r)
                (ambient_reads r) (color_reads r)
                (log r ++
                 Printed "Current State: 4" :: extinguish_events K ++
                 [Printed "Cooldown period before returning to wander.";
                  Printed "Transitioning to 1"])).
Proof.
  intros Hs. rewrite update_EXTINGUISH by exact Hs.
  unfold extinguish_events. unfold_ops. rewrite Hs. norm_log. reflexivity.
Qed.

Lemma update_COMPLETE_result (fuel : nat) (r : Robot) :
  current_state r = COMPLETE ->
  update K env fuel r =
  Some (mkRobot COMPLETE (touch_reads r) (side_reads r)
                (ambient_reads r) (color_reads r)
                (log r ++ [Printed "Current State: 5"])).
Proof.
  intros Hs. rewrite update_COMPLETE by exact Hs.
  unfold_ops. rewrite Hs. reflexivity.
Qed.

Lemma sweep_no_fan_or_hub (c n : nat) :
  filter is_fan_or_hub (sweep env c n) = [].
Proof.
  revert c. induction n as [|n IH]; intros c; [reflexivity|].
  rewrite sweep_S. simpl. apply IH.
Qed.

(** X4.  The state a completed step ends in is decided by the guards alone.
    From [WANDER]: [FIRE_DETECTION] when one of the eight ambient readings
    ahead is above the threshold, else [WALL_FOLLOWING] when the touch
    sensor is in contact, else [WANDER].  From [WALL_FOLLOWING]:
    [FIRE_DETECTION] when the colour read shows the goal, whatever the
    policy did, else [WALL_FOLLOWING].  From [FIRE_DETECTION]:
    [EXTINGUISH].  From [EXTINGUISH]: [WANDER]. *)
Theorem update_next_state :
  forall (fuel : nat) (r r' : Robot),
    update K env fuel r = Some r' ->
    current_state r' = next_state K env r.
Proof.
  intros fuel r r' H. unfold next_state.
  destruct (current_state r) eqn:Hs.
  - destruct (first_flame_or_none K env (ambient_reads r) 8)
      as [Hno | (k & Hk & Hno & Hf)].
    + rewrite (update_WANDER_exhausted fuel r Hs Hno) in H.
      apply Some_eq in H. subst r'.
      rewrite (proj2 (flame_ahead_false _ _) Hno). reflexivity.
    + rewrite (update_WANDER_found fuel k r Hs Hk Hno Hf) in H.
      apply Some_eq in H. subst r'.
      rewrite (flame_ahead_true _ _ k Hk Hf). reflexivity.
  - rewrite (update_WALL_FOLLOWING_result fuel r Hs) in H.
    apply Some_eq in H. subst r'. reflexivity.
  - rewrite update_FIRE_DETECTION in H by exact Hs.
    destruct (approach_flame K env fuel (announced r)); [|discriminate].
    apply Some_eq in H. subst r'. reflexivity.
  - rewrite (update_EXTINGUISH_result fuel r Hs) in H.
    apply Some_eq in H. subst r'. reflexivity.
  - rewrite (update_COMPLETE_result fuel r Hs) in H.
    apply Some_eq in H. subst r'. reflexivity.
Qed.

Lemma approach_rounds_app_no_fan_or_hub (cc ct k : nat) (tail : list event) :
  filter is_fan_or_hub (approach_rounds K env cc ct k ++ tail) =
  filter is_fan_or_hub tail.
Proof. rewrite filter_app, approach_rounds_no_fan_or_hub. reflexivity. Qed.

(** The fan and hub commands of a completed step, by the state it starts
    in. *)
Lemma update_fan_and_hub (fuel : nat) (r r' : Robot) :
  update K env fuel r = Some r' ->
  filter is_fan_or_hub (step_events r r') =
    match current_state r with
    | FIRE_DETECTION | EXTINGUISH =>
        [RunTime (FAN_SPEED K) (FAN_RUN_TIME K); LightOn GREEN]
    | _ => []
    end.
Proof.
  intros H. destruct (current_state r) eqn:Hs.
  - destruct (first_flame_or_none K env (ambient_reads r) 8)
      as [Hno | (k & Hk & Hno & Hf)].
    + rewrite (update_WANDER_exhausted fuel r Hs Hno) in H.
      apply Some_eq in H. subst r'.
      erewrite step_events_app by reflexivity.
      cbn [filter is_fan_or_hub]. rewrite filter_app, sweep_no_fan_or_hub.
      case_if; reflexivity.
    + rewrite (update_WANDER_found fuel k r Hs Hk Hno Hf) in H.
      apply Some_eq in H. subst r'.
      erewrite step_events_app by reflexivity.
      cbn [filter is_fan_or_hub]. rewrite filter_app, sweep_no_fan_or_hub.
      reflexivity.
  - rewrite (update_WALL_FOLLOWING_result fuel r Hs) in H.
    apply Some_eq in H. subst r'. unfold step_events. unfold_ops.
    repeat case_if; norm_log;
      rewrite skipn_app, skipn_all, Nat.sub_diag; reflexivity.
  - destruct (first_goal_or_none K env (color_reads r) fuel)
      as [Hno | (k & Hk & Hf)].
    + rewrite (update_FIRE_DETECTION_blocked fuel r Hs Hno) in H. discriminate.
    + rewrite (update_FIRE_DETECTION_found fuel k r Hs Hk Hf) in H.
      apply Some_eq in H. subst r'.
      erewrite step_events_app by reflexivity.
      cbn [filter is_fan_or_hub].
      rewrite approach_rounds_app_no_fan_or_hub. reflexivity.
  - rewrite (update_EXTINGUISH_result fuel r Hs) in H.
    apply Some_eq in H. subst r'.
    erewrite step_events_app by reflexivity. reflexivity.
  - rewrite (update_COMPLETE_result fuel r Hs) in H.
    apply Some_eq in H. subst r'.
    erewrite step_events_app by reflexivity. reflexivity.
Qed.

(** X6.  A completed step commands the fan and the hub light only from
    [FIRE_DETECTION] and [EXTINGUISH], and there exactly once: the fan at
    [FAN_SPEED] for [FAN_RUN_TIME], then the green light.  No step sounds
    the speaker or touches the gyro setting: the beep of [raise_alarm] is
    on no path of [update]. *)
Theorem update_fan_hub_commands :
  forall (fuel : nat) (r r' : Robot),
    update K env fuel r = Some r' ->
    filter is_fan_or_hub (step_events r r') =
      (match current_state r with
       | FIRE_DETECTION | EXTINGUISH =>
           [RunTime (FAN_SPEED K) (FAN_RUN_TIME K); LightOn GREEN]
       | _ => []
       end) /\
    (forall f d : Z, ~ In (Beep f d) (step_events r r')) /\
    filter is_fan_or_hub (step_events r (exec (raise_alarm K) r)) =
      [Beep (ALARM_FREQUENCY K) (ALARM_DURATION K)].
Proof.
  intros fuel r r' H. pose proof (update_fan_and_hub fuel r r' H) as F.
  split; [exact F|]. split.
  - intros f d Hin.
    assert (Hf : In (Beep f d) (filter is_fan_or_hub (step_events r r')))
      by (apply filter_In; split; [exact Hin | reflexivity]).
    rewrite F in Hf.
    destruct (current_state r); simpl in Hf;
      repeat (destruct Hf as [Hf | Hf]; [discriminate|]); exact Hf.
  - erewrite step_events_app by (unfold_ops; norm_log; reflexivity).
    reflexivity.
Qed.

(** X7.  Which sensors a completed step reads, by the state it starts in.
    [WANDER]: the ambient sensor one to eight times, the touch sensor once
    when no flame is seen and not at all otherwise.  [WALL_FOLLOWING]: the
    touch sensor once, the side sensor at most twice, the colour sensor
    once, the ambient sensor never.  [FIRE_DETECTION]: the colour sensor
    once more than the touch sensor, the side and ambient sensors never.
    [EXTINGUISH] and [COMPLETE]: none. *)
Theorem update_sensor_reads :
  forall (fuel : nat) (r r' : Robot),
    update K env fuel r = Some r' ->
    match current_state r with
    | WANDER =>
        (ambient_reads r < ambient_reads r' <= ambient_reads r + 8)%nat /\
        touch_reads r' =
          (if flame_ahead K env (ambient_reads r) 8
           then touch_reads r else S (touch_reads r)) /\
        side_reads r' = side_reads r /\
        color_reads r' = color_reads r
    | WALL_FOLLOWING =>
        touch_reads r' = S (touch_reads r) /\
        (side_reads r <= side_reads r' <= side_reads r + 2)%nat /\
        color_reads r' = S (color_reads r) /\
        ambient_reads r' = ambient_reads r
    | FIRE_DETECTION =>
        (color_reads r' + touch_reads r = color_reads r + touch_reads r' + 1)%nat /\
        side_reads r' = side_reads r /\
        ambient_reads r' = ambient_reads r
    | EXTINGUISH | COMPLETE =>
        touch_reads r' = touch_reads r /\
        side_reads r' = side_reads r /\
        ambient_reads r' = ambient_reads r /\
        color_reads r' = color_reads r
    end.
Proof.
  intros fuel r r' H. destruct (current_state r) eqn:Hs.
  - destruct (first_flame_or_none K env (ambient_reads r) 8)
      as [Hno | (k & Hk & Hno & Hf)].
    + rewrite (update_WANDER_exhausted fuel r Hs Hno) in H.
      apply Some_eq in H. subst r'.
      rewrite (proj2 (flame_ahead_false _ _) Hno).
      cbn [touch_reads side_reads ambient_reads color_reads].
      repeat split; lia.
    + rewrite (update_WANDER_found fuel k r Hs Hk Hno Hf) in H.
      apply Some_eq in H. subst r'.
      rewrite (flame_ahead_true _ _ k Hk Hf).
      cbn [touch_reads side_reads ambient_reads color_reads].
      repeat split; lia.
  - rewrite (update_WALL_FOLLOWING_result fuel r Hs) in H.
    apply Some_eq in H. subst r'. unfold_ops.
    repeat case_if; repeat split; lia.
  - destruct (first_goal_or_none K env (color_reads r) fuel)
      as [Hno | (k & Hk & Hf)].
    + rewrite (update_FIRE_DETECTION_blocked fuel r Hs Hno) in H. discriminate.
    + rewrite (update_FIRE_DETECTION_found fuel k r Hs Hk Hf) in H.
      apply Some_eq in H. subst r'.
      cbn [touch_reads side_reads ambient_reads color_reads].
      repeat split; lia.
  - rewrite (update_EXTINGUISH_result fuel r Hs) in H.
    apply Some_eq in H. subst r'. repeat split.
  - rewrite (update_COMPLETE_result fuel r Hs) in H.
    apply Some_eq in H. subst r'. repeat split.
Qed.

(** X8.  One fire, two runs of the fan.  From [FIRE_DETECTION] with the
    goal tile in reach, the step completes in [EXTINGUISH] and the step
    after it completes in [WANDER]; [extinguish] is invoked in both, by
    [approach_flame] and by the [EXTINGUISH] branch, so the fan is run
    twice; the second step reads no sensor. *)
Theorem fire_cycle_runs_fan_twice :
  forall (fuel fuel' : nat) (r : Robot),
    current_state r = FIRE_DETECTION ->
    goal_within K env (color_reads r) fuel ->
    exists r1 r2 : Robot,
      update K env fuel r = Some r1 /\
      current_state r1 = EXTINGUISH /\
      update K env fuel' r1 = Some r2 /\
      current_state r2 = WANDER /\
      filter is_fan_or_hub (step_events r r2) =
        [RunTime (FAN_SPEED K) (FAN_RUN_TIME K); LightOn GREEN;
         RunTime (FAN_SPEED K) (FAN_RUN_TIME K); LightOn GREEN] /\
      filter is_sensor_read (step_events r1 r2) = [].
Proof.
  intros fuel fuel' r Hs (j & Hj & Hg).
  destruct (first_goal_or_none K env (color_reads r) fuel)
    as [Hno | (k & Hk & Hf)]; [exfalso; exact (Hno j Hj Hg)|].
  pose proof (update_FIRE_DETECTION_found fuel k r Hs Hk Hf) as E1.
  eexists. eexists. split; [exact E1|]. split; [reflexivity|].
  split; [apply update_EXTINGUISH_result; reflexivity|].
  split; [reflexivity|]. split.
  - erewrite step_events_app
      by (cbn [log]; rewrite <- app_assoc; reflexivity).
    cbn [filter is_fan_or_hub app].
    rewrite <- app_assoc, approach_rounds_app_no_fan_or_hub. reflexivity.
  - erewrite step_events_app by reflexivity. reflexivity.
Qed.

Lemma wall_following_cursors (r : Robot) :
  touch_reads (exec (wall_following K env) r) = S (touch_reads r) /\
  ambient_reads (exec (wall_following K env) r) = ambient_reads r /\
  color_reads (exec (wall_following K env) r) = color_reads r.
Proof. unfold_ops. repeat case_if; repeat split. Qed.

(** X9.  Wall following ends at the goal tile and nowhere else.  As long as
    the colour reads do not show the goal, any number of steps from
    [WALL_FOLLOWING] complete in [WALL_FOLLOWING], each with one touch read
    and one colour read and none of the ambient light; the step whose
    colour read shows the goal ends in [FIRE_DETECTION]. *)
Theorem wall_following_until_goal :
  forall (fuels : list nat) (r : Robot),
    current_state r = WALL_FOLLOWING ->
    (forall i : nat, (i < List.length fuels)%nat ->
       color_seq env (color_reads r + i) <> GOAL_COLOR K) ->
    exists r' : Robot,
      run K env fuels r = Some r' /\
      current_state r' = WALL_FOLLOWING /\
      touch_reads r' = (touch_reads r + List.length fuels)%nat /\
      color_reads r' = (color_reads r + List.length fuels)%nat /\
      ambient_reads r' = ambient_reads r /\
      (color_seq env (color_reads r') = GOAL_COLOR K ->
       forall fuel : nat,
       exists r'' : Robot,
         update K env fuel r' = Some r'' /\
         current_state r'' = FIRE_DETECTION).
Proof.
  induction fuels as [|fuel fuels IH]; intros r Hs Hno.
  - exists r. simpl. rewrite !Nat.add_0_r.
    repeat split; try reflexivity; try exact Hs.
    intros Hg fuel. eexists.
    split; [apply (update_WALL_FOLLOWING_result fuel r Hs)|].
    cbn [current_state]. rewrite Hg, (proj2 (Color_eqb_eq _ _) eq_refl).
    reflexivity.
  - assert (Hb : Color_eqb (color_seq env (color_reads r)) (GOAL_COLOR K) = false).
    { destruct (Color_eqb (color_seq env (color_reads r)) (GOAL_COLOR K)) eqn:E;
        [|reflexivity].
      apply Color_eqb_eq in E. exfalso.
      apply (Hno 0%nat); [simpl; lia | rewrite Nat.add_0_r; exact E]. }
    destruct (wall_following_cursors (announced r)) as (Ct & Ca & Cc).
    pose proof (update_WALL_FOLLOWING_result fuel r Hs) as E.
    cbv zeta in E. rewrite Hb in E.
    match type of E with _ = Some ?x => set (r1 := x) in * end.
    destruct (IH r1) as (r' & R & S' & T & C & A & G).
    + reflexivity.
    + intros i Hi. subst r1. cbn [color_reads].
      rewrite Nat.add_succ_l, <- Nat.add_succ_r. apply Hno. simpl. lia.
    + exists r'. split; [simpl; rewrite E; exact R|].
      split; [exact S'|].
      subst r1. cbn [touch_reads color_reads ambient_reads] in T, C, A.
      rewrite Ct in T. rewrite Ca in A.
      change (touch_reads (announced r)) with (touch_reads r) in T.
      change (ambient_reads (announced r)) with (ambient_reads r) in A.
      simpl List.length.
      split; [lia|]. split; [lia|]. split; [exact A | exact G].
Qed.

Lemma sweep_no_stop (c n : nat) : filter is_stop (sweep env c n) = [].
Proof.
  revert c. induction n as [|n IH]; intros c; [reflexivity|].
  rewrite sweep_S. simpl. apply IH.
Qed.

Lemma sweep_no_straight (c n : nat) : straights (sweep env c n) = [].
Proof.
  revert c. induction n as [|n IH]; intros c; [reflexivity|].
  rewrite sweep_S. simpl. apply IH.
Qed.

(** X10.  A step from [WANDER] that sees no flame turns the robot through
    a full circle before it moves.  Its events are, in this order: the
    print of the state; eight times an ambient read followed by a turn of
    45, 360 in all; the print that announces wandering; then the one action
    of [wander]: the touch read and a straight drive of [WANDER_DISTANCE]
    with the state kept, or on contact the touch read, a stop, the
    back-off, a turn of -90 and the move to [WALL_FOLLOWING]. *)
Theorem update_wander_full_rotation :
  forall (fuel : nat) (r : Robot),
    current_state r = WANDER ->
    no_flame K env (ambient_reads r) 8 ->
    let contact := touched_seq env (touch_reads r) in
    let scan := sweep env (ambient_reads r) 8 in
    let action :=
      if contact
      then [Touched true; Stop; Straight (- WALL_FOLLOW_STEP K);
            Turn (-90); Printed "Transitioning to 2"]
      else [Touched false; Straight (WANDER_DISTANCE K)] in
    let r' :=
      mkRobot (if contact then WALL_FOLLOWING else WANDER)
              (S (touch_reads r)) (side_reads r)
              (ambient_reads r + 8) (color_reads r)
              (log r ++
               Printed "Current State: 1" :: scan ++
               Printed "No flame detected during initial scan. Wandering..." ::
               action) in
    update K env fuel r = Some r' /\
    step_events r r' =
      Printed "Current State: 1" :: scan ++
      Printed "No flame detected during initial scan. Wandering..." :: action /\
    filter is_motion scan = repeat (Turn 45) 8 /\
    fold_right Z.add 0 (turns scan) = 360 /\
    turns (step_events r r') = repeat 45 8 ++ (if contact then [-90] else []) /\
    fold_right Z.add 0 (firstn 8 (turns (step_events r r'))) = 360 /\
    straights (step_events r r') =
      [if contact then - WALL_FOLLOW_STEP K else WANDER_DISTANCE K] /\
    filter is_stop (step_events r r') = (if contact then [Stop] else []).
Proof.
  intros fuel r Hs Hno contact scan action r'.
  assert (M : forall c n, filter is_motion (sweep env c n) = repeat (Turn 45) n).
  { intros c n. revert c. induction n as [|n IH]; intros c; [reflexivity|].
    rewrite sweep_S. simpl. rewrite IH. reflexivity. }
  assert (L : step_events r r' =
    Printed "Current State: 1" :: scan ++
    Printed "No flame detected during initial scan. Wandering..." :: action)
    by (apply step_events_app; reflexivity).
  split; [apply (update_WANDER_exhausted fuel r Hs Hno)|].
  split; [exact L|]. split; [apply M|].
  subst scan. rewrite L. rewrite turns_sweep.
  split; [reflexivity|].
  cbn [turns straights filter is_stop].
  rewrite turns_app, straights_app, filter_app.
  rewrite turns_sweep, sweep_no_straight, sweep_no_stop.
  subst action contact. case_if; repeat split; reflexivity.
Qed.

End Step.

(** ** These statements at concrete robots *)

(** The goal tile at the fourth colour read, contact at every other touch
    read. *)
Definition env_approach : Sensors :=
  mkSensors Nat.even (fun _ => 300) (fun _ => 10)
            (fun n => if (n <? 3)%nat then WHITE else RED).

(** A robot in [WALL_FOLLOWING]: one step after [__init__], in contact. *)
Definition robot_at_wall : Robot := after_run K0 env_contact [0%nat].

(** A robot put in [FIRE_DETECTION] by hand, and what [approach_flame]
    makes of it. *)
Definition robot_approaching : Robot := mkRobot FIRE_DETECTION 0 0 0 0 [].

Definition robot_approached : Robot :=
  match approach_flame K0 env_approach 5 robot_approaching with
  | Some r => r
  | None => robot_approaching
  end.

(** [wall_following] in contact, with no wall in range, and with a wall
    at 40. *)
Lemma wall_following_three_branches_witness :
  (touched_seq env_contact (touch_reads Robot_init) = true /\
   log (exec (wall_following K0 env_contact) Robot_init) =
     [UseGyro true; Touched true; Stop; Straight (-50); Turn (-90)]) /\
  (touched_seq env_quiet (touch_reads Robot_init) = false /\
   WALL_FOLLOW_MIN_DISTANCE K0 <= distance_seq env_quiet (side_reads Robot_init) /\
   log (exec (wall_following K0 env_quiet) Robot_init) =
     [UseGyro true; Touched false; Distance 300; Turn (-90)]) /\
  (touched_seq (env_wall 40) (touch_reads Robot_init) = false /\
   distance_seq (env_wall 40) (side_reads Robot_init) < WALL_FOLLOW_MIN_DISTANCE K0 /\
   log (exec (wall_following K0 (env_wall 40)) Robot_init) =
     [UseGyro true; Touched false; Distance 40; Distance 40; Turn 120;
      Straight 50]).
Proof.
  assert (H1 : WALL_FOLLOW_MIN_DISTANCE K0
               <= distance_seq env_quiet (side_reads Robot_init))
    by (simpl; lia).
  assert (H2 : distance_seq (env_wall 40) (side_reads Robot_init)
               < WALL_FOLLOW_MIN_DISTANCE K0)
    by (simpl; lia).
  split; [|split].
  - split; [reflexivity|].
    exact (proj1 (proj1 (wall_following_three_branches K0 env_contact Robot_init)
                    eq_refl)).
  - split; [reflexivity|]. split; [exact H1|].
    exact (proj1 (proj1 (proj2 (wall_following_three_branches K0 env_quiet
                                  Robot_init)) eq_refl H1)).
  - split; [reflexivity|]. split; [exact H2|].
    exact (proj1 (proj1 (proj2 (proj2 (wall_following_three_branches K0
                                         (env_wall 40) Robot_init)))
                    eq_refl H2)).
Defined.

(** [approach_flame] with the goal at the fourth colour read: three rounds. *)
Lemma approach_flame_rounds_witness :
  approach_flame K0 env_approach 5 robot_approaching = Some robot_approached /\
  exists k : nat,
    (k < 5)%nat /\
    first_goal K0 env_approach (color_reads robot_approaching) k /\
    robot_approached =
      mkRobot COMPLETE (0 + k) 0 0 (0 + k + 1)
        ([] ++ approach_rounds K0 env_approach 0 0 k ++
         Colour RED :: extinguish_events K0).
Proof.
  assert (H : approach_flame K0 env_approach 5 robot_approaching
              = Some robot_approached) by reflexivity.
  split; [exact H|].
  destruct (approach_flame_rounds K0 env_approach 5 _ _ H)
    as (k & Hk & Hf & E & _).
  exists k. split; [exact Hk|]. split; [exact Hf | exact E].
Defined.

(** The first step after [__init__] in contact ends in [WALL_FOLLOWING]. *)
Lemma update_next_state_witness :
  update K0 env_contact 0 Robot_init = Some robot_at_wall /\
  current_state robot_at_wall = next_state K0 env_contact Robot_init /\
  next_state K0 env_contact Robot_init = WALL_FOLLOWING.
Proof.
  assert (H : update K0 env_contact 0 Robot_init = Some robot_at_wall)
    by reflexivity.
  split; [exact H|].
  split; [exact (update_next_state K0 env_contact 0 _ _ H) | reflexivity].
Defined.

(** The step from [FIRE_DETECTION] on the goal tile runs the fan once. *)
Lemma update_fan_hub_commands_witness :
  update K0 env_flame 1 robot_at_fire = Some robot_extinguishing /\
  filter is_fan_or_hub (step_events robot_at_fire robot_extinguishing) =
    [RunTime 500 3000; LightOn GREEN] /\
  (forall f d : Z, ~ In (Beep f d) (step_events robot_at_fire robot_extinguishing)).
Proof.
  assert (H : update K0 env_flame 1 robot_at_fire = Some robot_extinguishing)
    by reflexivity.
  split; [exact H|].
  destruct (update_fan_hub_commands K0 env_flame 1 _ _ H) as (F & B & _).
  split; [exact F | exact B].
Defined.

(** The first step after [__init__] with a flame at the third check reads
    the ambient sensor three times and no other sensor. *)
Lemma update_sensor_reads_witness :
  update K0 env_flame 0 Robot_init = Some robot_at_fire /\
  (ambient_reads Robot_init < ambient_reads robot_at_fire
   <= ambient_reads Robot_init + 8)%nat /\
  side_reads robot_at_fire = side_reads Robot_init /\
  color_reads robot_at_fire = color_reads Robot_init.
Proof.
  assert (H : update K0 env_flame 0 Robot_init = Some robot_at_fire)
    by reflexivity.
  split; [exact H|].
  destruct (update_sensor_reads K0 env_flame 0 _ _ H) as (A & _ & S' & C).
  split; [exact A|]. split; [exact S' | exact C].
Defined.

(** The two steps from [FIRE_DETECTION] on the goal tile. *)
Lemma fire_cycle_runs_fan_twice_witness :
  current_state robot_at_fire = FIRE_DETECTION /\
  goal_within K0 env_flame (color_reads robot_at_fire) 1 /\
  exists r1 r2 : Robot,
    update K0 env_flame 1 robot_at_fire = Some r1 /\
    update K0 env_flame 0 r1 = Some r2 /\
    current_state r2 = WANDER /\
    filter is_fan_or_hub (step_events robot_at_fire r2) =
      [RunTime 500 3000; LightOn GREEN; RunTime 500 3000; LightOn GREEN].
Proof.
  assert (G : goal_within K0 env_flame (color_reads robot_at_fire) 1)
    by (exists 0%nat; split; [lia | reflexivity]).
  split; [reflexivity|]. split; [exact G|].
  destruct (fire_cycle_runs_fan_twice K0 env_flame 1 0 robot_at_fire eq_refl G)
    as (r1 & r2 & U1 & _ & U2 & S2 & F & _).
  exists r1, r2. split; [exact U1|]. split; [exact U2|].
  split; [exact S2 | exact F].
Defined.

(** Three steps along a wall with a white floor. *)
Lemma wall_following_until_goal_witness :
  current_state robot_at_wall = WALL_FOLLOWING /\
  (forall i : nat, (i < List.length [0%nat; 0%nat; 0%nat])%nat ->
     color_seq env_contact (color_reads robot_at_wall + i) <> GOAL_COLOR K0) /\
  exists r' : Robot,
    run K0 env_contact [0%nat; 0%nat; 0%nat] robot_at_wall = Some r' /\
    current_state r' = WALL_FOLLOWING /\
    ambient_reads r' = ambient_reads robot_at_wall.
Proof.
  assert (N : forall i : nat, (i < List.length [0%nat; 0%nat; 0%nat])%nat ->
     color_seq env_contact (color_reads robot_at_wall + i) <> GOAL_COLOR K0)
    by (intros i _; discriminate).
  split; [reflexivity|]. split; [exact N|].
  destruct (wall_following_until_goal K0 env_contact [0%nat; 0%nat; 0%nat]
              robot_at_wall eq_refl N)
    as (r' & R & S' & _ & _ & A & _).
  exists r'. split; [exact R|]. split; [exact S' | exact A].
Defined.

(** The first step after [__init__] with nothing in sight. *)
Lemma update_wander_full_rotation_witness :
  current_state Robot_init = WANDER /\
  no_flame K0 env_quiet (ambient_reads Robot_init) 8 /\
  update K0 env_quiet 0 Robot_init =
    Some (mkRobot WANDER 1 0 8 0
            ([UseGyro true] ++
             Printed "Current State: 1" :: sweep env_quiet 0 8 ++
             [Printed "No flame detected during initial scan. Wandering...";
              Touched false; Straight 200])) /\
  filter is_motion (sweep env_quiet 0 8) = repeat (Turn 45) 8.
Proof.
  assert (N : no_flame K0 env_quiet (ambient_reads Robot_init) 8)
    by (intros i Hi; simpl; lia).
  split; [reflexivity|]. split; [exact N|].
  destruct (update_wander_full_rotation K0 env_quiet 0 Robot_init eq_refl N)
    as (U & _ & M & _).
  split; [exact U | exact M].
Defined.
